(** * mbh-dashboard: hierarchy builder, statistics and word-level diff

    A shallow embedding of the algorithmic core of the dashboard:

    - [static/paths.js]: [parseSrirangaHierarchy], [groupByHierarchy],
      [parseSrirangaId], and the helpers [getBookMappingPath], [formatPercent],
      [getSimilarityClass], [getMatchStatusClass], [truncateText];
    - [static/dashboard.js]: the statistics of [buildHierarchy], [computeDiff]
      with its [tokenize], [diffWithAlignment], [diffWithLCS], [normalizeWord],
      and of the views [selectShloka], [truncateText], the item attributes of
      [renderShlokas] and the test of [applyFilter].

    Conventions of the embedding.

    - A shloka is a record of optional fields: [None] is a JSON field that is
      absent ([undefined] when read).  Identifiers and names are byte strings
      (only emptiness, equality and concatenation are used on them); numbers
      used as chapter, verse and book are integers; [similarity] is a rational.
    - Sanskrit text is a JavaScript string: a list of UTF-16 code units, since
      the regular expressions of the diff engine inspect single code units.
    - A plain object used as a dictionary ([hierarchy = {}]) is a [gmap] of its
      own properties; reading a key that is not an own property falls through
      to [Object.prototype], which is modelled by [getProp].
    - A [TypeError] raised by the engine is the completion [Throw].
    - The id given to [parseSrirangaId] is a list of code units; a number that
      is [NaN] is [None], and [parseInt] is exact (no rounding to a double). *)

From Stdlib Require Import Ascii String ZArith QArith Qround Lia.
From stdpp Require Import gmap strings list fin_maps pretty.

Local Open Scope Z_scope.
Local Open Scope nat_scope.
Local Open Scope string_scope.
Local Open Scope list_scope.

(** ** JavaScript values used by the records *)

(** A JavaScript string as its UTF-16 code units. *)
Abbreviation jsstring := (list N).

(** [metadata.alignment], written by the matching pipeline. *)
Record Alignment := {
  source_words : option (list jsstring);
  target_words : option (list jsstring);
  matched_positions : option (list Z);
  source_matched_positions : option (list Z)
}.

Record Metadata := { alignment : option Alignment }.

(** One element of the book mapping file.  The JSON field [id] is [shloka_id]
    here. *)
Record Shloka := {
  shloka_id : option string;
  source_id : option string;
  book : option Z;
  chapter : option Z;
  verse : option Z;
  parva_id : option string;
  parva_name : option string;
  upaparva_id : option string;
  upaparva_name : option string;
  adhyaya_id : option string;
  adhyaya_name : option string;
  has_match : option bool;
  similarity : option Q;
  match_corpus : option string;
  many_to_one : option bool;
  one_to_many : option bool;
  source_text : option jsstring;
  matched_target_text : option jsstring;
  metadata : option Metadata
}.

(** A record with no field at all: [{}]. *)
Definition emptyShloka : Shloka :=
  {| shloka_id := None; source_id := None; book := None; chapter := None;
     verse := None; parva_id := None; parva_name := None; upaparva_id := None;
     upaparva_name := None; adhyaya_id := None; adhyaya_name := None;
     has_match := None; similarity := None; match_corpus := None;
     many_to_one := None; one_to_many := None; source_text := None;
     matched_target_text := None; metadata := None |}.

(** *** Truthiness and [||] *)

Definition truthyString (o : option string) : bool :=
  match o with
  | Some s => negb (String.eqb s "")
  | None => false
  end.

Definition truthyBool (o : option bool) : bool :=
  match o with
  | Some b => b
  | None => false
  end.

(** [o || d] for a string field. *)
Definition orString (o : option string) (d : string) : string :=
  match o with
  | Some s => if String.eqb s "" then d else s
  | None => d
  end.

(** [o || d] for an integer field: [0] is falsy. *)
Definition orNumber (o : option Z) (d : Z) : Z :=
  match o with
  | Some z => if Z.eqb z 0 then d else z
  | None => d
  end.

(** [String(n)] for an integer [n] (below 10^21 in absolute value, where
    JavaScript prints all the digits). *)
Definition String_of_number (n : Z) : string := pretty n.

(** [s.padStart(n, '0')]. *)
Definition padStart (n : nat) (s : string) : string :=
  String.string_of_list_ascii (replicate (n - String.length s) "0"%char) +:+ s.

(** ** static/paths.js *)

Module Paths.

Record Parsed := {
  p_book : Z;
  parva : string;
  parvaName : string;
  upaparva : string;
  upaparvaName : string;
  adhyaya : string;
  adhyayaName : string;
  verseNumeric : Z
}.

(** [Math.floor((chapter - 1) / 10) + 1] *)
Definition upaparvaNumber (chapter : Z) : Z := ((chapter - 1) `div` 10 + 1)%Z.

Definition parseSrirangaHierarchy (shloka : Shloka) : Parsed :=
  if truthyString (parva_id shloka) && truthyString (upaparva_id shloka)
     && truthyString (adhyaya_id shloka)
  then
    {| p_book := orNumber (book shloka) 1;
       parva := orString (parva_id shloka) "";
       parvaName := orString (parva_name shloka) (orString (parva_id shloka) "");
       upaparva := orString (upaparva_id shloka) "";
       upaparvaName :=
         orString (upaparva_name shloka) (orString (upaparva_id shloka) "");
       adhyaya := orString (adhyaya_id shloka) "";
       adhyayaName :=
         orString (adhyaya_name shloka) (orString (adhyaya_id shloka) "");
       verseNumeric := orNumber (verse shloka) 0 |}
  else
    let chapter := orNumber (chapter shloka) 0 in
    {| p_book := orNumber (book shloka) 1;
       parva := "P01";
       parvaName := "Adi Parva";
       upaparva := "U" +:+ padStart 2 (String_of_number (upaparvaNumber chapter));
       upaparvaName := "Upaparva " +:+ String_of_number (upaparvaNumber chapter);
       adhyaya := "A" +:+ padStart 3 (String_of_number chapter);
       adhyayaName := "Adhyaya " +:+ String_of_number chapter;
       verseNumeric := orNumber (verse shloka) 0 |}.

(** *** The hierarchy *)

Record Stats := { matched : nat; unmatched : nat; total : nat }.

Definition zeroStats : Stats := {| matched := 0; unmatched := 0; total := 0 |}.

Record AdhyayaNode := {
  shlokas : list Shloka;
  a_stats : Stats;
  a_name : string
}.

Record UpaparvaNode := {
  adhyayas : gmap string AdhyayaNode;
  u_stats : Stats;
  u_name : string
}.

Record ParvaNode := {
  upaparvas : gmap string UpaparvaNode;
  pv_stats : Stats;
  pv_name : string
}.

(** How a call of the engine completes. *)
Inductive completion (A : Type) : Type :=
  | Normal (a : A)
  | Throw.
Arguments Normal {A} a.
Arguments Throw {A}.

(** The property names every plain object inherits from [Object.prototype]. *)
Definition objectPrototypeKeys : list string :=
  [ "__proto__"; "constructor"; "hasOwnProperty"; "isPrototypeOf";
    "propertyIsEnumerable"; "toLocaleString"; "toString"; "valueOf";
    "__defineGetter__"; "__defineSetter__"; "__lookupGetter__";
    "__lookupSetter__" ].

Definition inheritedKey (k : string) : bool :=
  bool_decide (k ∈ objectPrototypeKeys).

(** The result of reading [obj[k]] on a plain object with own properties
    [obj]: an own node, a value of [Object.prototype] (truthy, and with none
    of the properties [upaparvas], [adhyayas], [shlokas], [stats]), or
    [undefined]. *)
Inductive slot (A : Type) : Type :=
  | Own (a : A)
  | Inherited
  | Undefined.
Arguments Own {A} a.
Arguments Inherited {A}.
Arguments Undefined {A}.

Definition getProp {A} (obj : gmap string A) (k : string) : slot A :=
  match obj !! k with
  | Some a => Own a
  | None => if inheritedKey k then Inherited else Undefined
  end.

(** [if (!obj[k]) obj[k] = fresh] *)
Definition ensureProp {A} (obj : gmap string A) (k : string) (fresh : A)
    : gmap string A :=
  match getProp obj k with
  | Undefined => <[k := fresh]> obj
  | _ => obj
  end.

(** [stats.total++] followed by [stats.matched++] or [stats.unmatched++]. *)
Definition bump (isMatched : bool) (s : Stats) : Stats :=
  if isMatched
  then {| matched := S (matched s); unmatched := unmatched s; total := S (total s) |}
  else {| matched := matched s; unmatched := S (unmatched s); total := S (total s) |}.

(** The body of [shlokas.forEach(shloka => ...)]. *)
Definition addShloka (hierarchy : gmap string ParvaNode) (shloka : Shloka)
    : completion (gmap string ParvaNode) :=
  let parsed := parseSrirangaHierarchy shloka in
  let parva := orString (Some (parva parsed)) "Unknown" in
  let parvaName := orString (Some (parvaName parsed)) parva in
  let upaparva := orString (Some (upaparva parsed)) "Unknown" in
  let upaparvaName := orString (Some (upaparvaName parsed)) upaparva in
  let adhyaya := orString (Some (adhyaya parsed)) "Unknown" in
  let adhyayaName := orString (Some (adhyayaName parsed)) adhyaya in
  let hierarchy1 :=
    ensureProp hierarchy parva
      {| upaparvas := ∅; pv_stats := zeroStats; pv_name := parvaName |} in
  match getProp hierarchy1 parva with
  | Own pn =>
    let upaparvas1 :=
      ensureProp (upaparvas pn) upaparva
        {| adhyayas := ∅; u_stats := zeroStats; u_name := upaparvaName |} in
    match getProp upaparvas1 upaparva with
    | Own un =>
      let adhyayas1 :=
        ensureProp (adhyayas un) adhyaya
          {| shlokas := []; a_stats := zeroStats; a_name := adhyayaName |} in
      match getProp adhyayas1 adhyaya with
      | Own an =>
        let isMatched := truthyBool (has_match shloka) in
        let an' :=
          {| shlokas := shlokas an ++ [shloka];
             a_stats := bump isMatched (a_stats an);
             a_name := a_name an |} in
        let un' :=
          {| adhyayas := <[adhyaya := an']> adhyayas1;
             u_stats := bump isMatched (u_stats un);
             u_name := u_name un |} in
        let pn' :=
          {| upaparvas := <[upaparva := un']> upaparvas1;
             pv_stats := bump isMatched (pv_stats pn);
             pv_name := pv_name pn |} in
        Normal (<[parva := pn']> hierarchy1)
      | _ => Throw
      end
    | _ => Throw
    end
  | _ => Throw
  end.

(** [forEach] from a given accumulated hierarchy; an exception ends the loop. *)
Fixpoint groupFrom (hierarchy : gmap string ParvaNode) (shlokas : list Shloka)
    : completion (gmap string ParvaNode) :=
  match shlokas with
  | [] => Normal hierarchy
  | shloka :: rest =>
    match addShloka hierarchy shloka with
    | Normal hierarchy' => groupFrom hierarchy' rest
    | Throw => Throw
    end
  end.

Definition groupByHierarchy (shlokas : list Shloka)
    : completion (gmap string ParvaNode) :=
  groupFrom ∅ shlokas.

(** *** Reading a hierarchy *)

(** The sum of a count over the children of a node, and the concatenation of
    lists kept by the children. *)
Definition sumOver {A} (f : A -> nat) (m : gmap string A) : nat :=
  sum_list_with (fun kv => f kv.2) (map_to_list m).

Definition collect {A B} (f : A -> list B) (m : gmap string A) : list B :=
  concat ((fun kv => f kv.2) <$> map_to_list m).

(** The counts of the children of a node, added up. *)
Definition childrenStats {A} (stats : A -> Stats) (m : gmap string A) : Stats :=
  {| matched := sumOver (fun c => matched (stats c)) m;
     unmatched := sumOver (fun c => unmatched (stats c)) m;
     total := sumOver (fun c => total (stats c)) m |}.

(** The counts of the records of a leaf. *)
Definition leafStats (records : list Shloka) : Stats :=
  {| matched := length (List.filter (fun s => truthyBool (has_match s)) records);
     unmatched :=
       length (List.filter (fun s => negb (truthyBool (has_match s))) records);
     total := length records |}.

Definition balanced (s : Stats) : Prop := total s = matched s + unmatched s.

(** The sum of the totals of all leaf buckets, and their records. *)
Definition leafTotals (hierarchy : gmap string ParvaNode) : nat :=
  sumOver
    (fun p =>
       sumOver (fun u => sumOver (fun a => total (a_stats a)) (adhyayas u))
         (upaparvas p))
    hierarchy.

Definition leafShlokas (hierarchy : gmap string ParvaNode) : list Shloka :=
  collect (fun p => collect (fun u => collect shlokas (adhyayas u)) (upaparvas p))
    hierarchy.

(** The leaf bucket [hierarchy[pk].upaparvas[uk].adhyayas[ak]], if there. *)
Definition bucketAt (hierarchy : gmap string ParvaNode) (pk uk ak : string)
    : option AdhyayaNode :=
  match hierarchy !! pk with
  | Some p =>
    match upaparvas p !! uk with
    | Some u => adhyayas u !! ak
    | None => None
    end
  | None => None
  end.

(** The keys under which [groupByHierarchy] files a record. *)
Definition keysOf (shloka : Shloka) : string * string * string :=
  let parsed := parseSrirangaHierarchy shloka in
  (orString (Some (parva parsed)) "Unknown",
   orString (Some (upaparva parsed)) "Unknown",
   orString (Some (adhyaya parsed)) "Unknown").

Definition filedAt (hierarchy : gmap string ParvaNode) (shloka : Shloka)
    (keys : string * string * string) : Prop :=
  exists a, bucketAt hierarchy keys.1.1 keys.1.2 keys.2 = Some a /\ shloka ∈ shlokas a.

(** A leaf that is an "Unknown" bucket: one of its three keys or of its three
    display names is the default ['Unknown'] of [groupByHierarchy]. *)
Definition inUnknownBucket (hierarchy : gmap string ParvaNode) (shloka : Shloka)
    : Prop :=
  exists pk p uk u ak a,
    hierarchy !! pk = Some p /\ upaparvas p !! uk = Some u
    /\ adhyayas u !! ak = Some a /\ shloka ∈ shlokas a
    /\ "Unknown" ∈ [pk; uk; ak; pv_name p; u_name u; a_name a].

(** A record without identifier, hierarchy placement and chapter. *)
Definition unplaced (shloka : Shloka) : Prop :=
  shloka_id shloka = None /\ source_id shloka = None /\ chapter shloka = None
  /\ parva_id shloka = None /\ upaparva_id shloka = None
  /\ adhyaya_id shloka = None.

(** No hierarchy identifier of the record is the name of a property that
    [Object.prototype] gives to every object. *)
Definition plainKeys (shloka : Shloka) : bool :=
  forallb
    (fun o =>
       match o with
       | Some k => negb (inheritedKey k)
       | None => true
       end)
    [parva_id shloka; upaparva_id shloka; adhyaya_id shloka].

(** The build is total, files every record in exactly one leaf and puts the
    records without identifier and chapter in an "Unknown" bucket. *)
Definition totalWithUnknownBucket (records : list Shloka) : Prop :=
  exists hierarchy,
    groupByHierarchy records = Normal hierarchy
    /\ leafShlokas hierarchy ≡ₚ records
    /\ forall r, r ∈ records -> unplaced r -> inUnknownBucket hierarchy r.

(** The invariant of the loop of [groupByHierarchy]. *)
Definition adhyayaInv (a : AdhyayaNode) : Prop :=
  a_stats a = leafStats (shlokas a).

Definition upaparvaInv (u : UpaparvaNode) : Prop :=
  u_stats u = childrenStats a_stats (adhyayas u)
  /\ map_Forall (fun _ a => adhyayaInv a) (adhyayas u).

Definition parvaInv (p : ParvaNode) : Prop :=
  pv_stats p = childrenStats u_stats (upaparvas p)
  /\ map_Forall (fun _ u => upaparvaInv u) (upaparvas p).

Definition hierarchyInv (hierarchy : gmap string ParvaNode) : Prop :=
  map_Forall (fun _ p => parvaInv p) hierarchy.

(** *** Sample data *)

(** A matched record of chapter 12 and a record with no field. *)
Definition chapterShloka : Shloka :=
  {| shloka_id := Some "s1"; source_id := None; book := Some 1%Z;
     chapter := Some 12%Z; verse := Some 3%Z; parva_id := None;
     parva_name := None; upaparva_id := None; upaparva_name := None;
     adhyaya_id := None; adhyaya_name := None; has_match := Some true;
     similarity := Some (95 # 100); match_corpus := Some "ce";
     many_to_one := None; one_to_many := None; source_text := None;
     matched_target_text := None; metadata := None |}.

Definition sampleRecords : list Shloka := [chapterShloka; emptyShloka].

(** What [groupByHierarchy([{}])] returns. *)
Definition bareHierarchy : gmap string ParvaNode :=
  {[ "P01" :=
       {| upaparvas :=
            {[ "U00" :=
                 {| adhyayas :=
                      {[ "A000" :=
                           {| shlokas := [emptyShloka];
                              a_stats := {| matched := 0; unmatched := 1; total := 1 |};
                              a_name := "Adhyaya 0" |} ]};
                    u_stats := {| matched := 0; unmatched := 1; total := 1 |};
                    u_name := "Upaparva 0" |} ]};
          pv_stats := {| matched := 0; unmatched := 1; total := 1 |};
          pv_name := "Adi Parva" |} ]}.

(** A record filed under the parva ["constructor"]. *)
Definition constructorShloka : Shloka :=
  {| shloka_id := Some "s1"; source_id := None; book := None; chapter := None;
     verse := None; parva_id := Some "constructor"; parva_name := None;
     upaparva_id := Some "U01"; upaparva_name := None;
     adhyaya_id := Some "A001"; adhyaya_name := None; has_match := None;
     similarity := None; match_corpus := None; many_to_one := None;
     one_to_many := None; source_text := None; matched_target_text := None;
     metadata := None |}.

End Paths.

(** ** static/dashboard.js *)

Module Dashboard.

(** *** Statistics computed by [buildHierarchy] *)

(** [matchRate] is the number [0] or the string returned by [toFixed(1)]. *)
Inductive rate : Type :=
  | RateNumber (n : Z)
  | RateFixed (s : string).

Record DashboardStats := {
  total : nat;
  allMatched : nat;
  unmatched : nat;
  highConfidence : nat;
  partial : nat;
  mndutt : nat;
  ce : nat;
  sarit : nat;
  manyToOne : nat;
  oneToMany : nat;
  matched : nat;
  matchRate : rate
}.

(** The literal [0.9]. *)
Definition threshold : Q := 9 # 10.

(** [x >= c] and [x < c] for a field that may be absent: a comparison with
    [undefined] is false either way. *)
Definition geNumber (x : option Q) (c : Q) : bool :=
  match x with
  | Some q => Qle_bool c q
  | None => false
  end.

Definition ltNumber (x : option Q) (c : Q) : bool :=
  match x with
  | Some q => Qle_bool q c && negb (Qeq_bool q c)
  | None => false
  end.

(** [x === lit] for a string field. *)
Definition isString (x : option string) (lit : string) : bool :=
  match x with
  | Some s => String.eqb s lit
  | None => false
  end.

(** [data.filter(p).length] *)
Definition countIf (p : Shloka -> bool) (data : list Shloka) : nat :=
  length (List.filter p data).

(** [x.toFixed(1)] for [x >= 0], as the number of tenths and as the string
    printed; ties go to the larger neighbour. *)
Definition tenths (x : Q) : Z := Qfloor (x * 10 + (1 # 2)).

Definition printTenths (n : Z) : string :=
  pretty (n `div` 10)%Z +:+ "." +:+ pretty (n `mod` 10)%Z.

Definition toFixed1 (x : Q) : string := printTenths (tenths x).

(** [(allMatched / total) * 100], in exact arithmetic. *)
Definition percentage (allMatched total : nat) : Q :=
  (inject_Z (Z.of_nat allMatched) / inject_Z (Z.of_nat total)) * 100.

Definition buildStats (data : list Shloka) : DashboardStats :=
  let total := length data in
  let allMatched := countIf (fun s => truthyBool (has_match s)) data in
  let highConfidence :=
    countIf (fun s => truthyBool (has_match s) && geNumber (similarity s) threshold)
      data in
  {| total := total;
     allMatched := allMatched;
     unmatched := countIf (fun s => negb (truthyBool (has_match s))) data;
     highConfidence := highConfidence;
     partial :=
       countIf (fun s => truthyBool (has_match s) && ltNumber (similarity s) threshold)
         data;
     mndutt := countIf (fun s => isString (match_corpus s) "mndutt") data;
     ce := countIf (fun s => isString (match_corpus s) "ce") data;
     sarit := countIf (fun s => isString (match_corpus s) "sarit") data;
     manyToOne := countIf (fun s => truthyBool (many_to_one s)) data;
     oneToMany := countIf (fun s => truthyBool (one_to_many s)) data;
     matched := highConfidence;
     matchRate :=
       if (0 <? total)%nat then RateFixed (toFixed1 (percentage allMatched total))
       else RateNumber 0 |}.

(** *** Code units *)

Definition SPACE : N := 32.
Definition anusvara : N := 0x902.
Definition visarga : N := 0x903.
Definition ma : N := 0x92e.
Definition virama : N := 0x94d.
Definition danda : N := 0x964.
Definition doubleDanda : N := 0x965.

(** The class [\s] of a regular expression, which is also what [trim]
    removes: WhiteSpace and LineTerminator. *)
Definition isWhiteSpace (c : N) : bool :=
  ((9 <=? c) && (c <=? 13) || (c =? 32) || (c =? 0xa0) || (c =? 0x1680)
   || (0x2000 <=? c) && (c <=? 0x200a) || (c =? 0x2028) || (c =? 0x2029)
   || (c =? 0x202f) || (c =? 0x205f) || (c =? 0x3000) || (c =? 0xfeff))%N.

(** [\d] and [0-9] *)
Definition isAsciiDigit (c : N) : bool := ((48 <=? c) && (c <=? 57))%N.

(** The range [०-९] *)
Definition isDevanagariDigit (c : N) : bool := ((0x966 <=? c) && (c <=? 0x96f))%N.

(** The code units of a literal of the source.  The file is UTF-8: the bytes
    of the literal are decoded, a sequence of two or three bytes into one code
    unit and a sequence of four bytes into a surrogate pair. *)
Fixpoint decodeUtf8 (bytes : list N) : jsstring :=
  match bytes with
  | [] => []
  | b0 :: rest =>
    if (b0 <? 0x80)%N then b0 :: decodeUtf8 rest
    else
      match rest with
      | [] => [b0]
      | b1 :: rest1 =>
        if (b0 <? 0xe0)%N
        then
          N.lor (N.shiftl (N.land b0 0x1f) 6) (N.land b1 0x3f) :: decodeUtf8 rest1
        else
          match rest1 with
          | [] => [b0; b1]
          | b2 :: rest2 =>
            if (b0 <? 0xf0)%N
            then
              N.lor (N.shiftl (N.land b0 0x0f) 12)
                (N.lor (N.shiftl (N.land b1 0x3f) 6) (N.land b2 0x3f))
                :: decodeUtf8 rest2
            else
              match rest2 with
              | [] => [b0; b1; b2]
              | b3 :: rest3 =>
                let cp :=
                  N.lor (N.shiftl (N.land b0 0x07) 18)
                    (N.lor (N.shiftl (N.land b1 0x3f) 12)
                       (N.lor (N.shiftl (N.land b2 0x3f) 6) (N.land b3 0x3f))) in
                let v := (cp - 0x10000)%N in
                (0xd800 + N.shiftr v 10)%N :: (0xdc00 + N.land v 0x3ff)%N
                  :: decodeUtf8 rest3
              end
          end
      end
  end.

Definition units (s : string) : jsstring :=
  decodeUtf8 ((fun a => N_of_ascii a) <$> list_ascii_of_string s).

(** *** String methods *)

(** [s.replace(/c/g, by)] for a single code unit [c]. *)
Definition replaceAll (c : N) (by_ : jsstring) (s : jsstring) : jsstring :=
  flat_map (fun u => if (u =? c)%N then by_ else [u]) s.

(** [s.replace(/[...]/g, '')] for a class of code units. *)
Definition removeAll (cls : N -> bool) (s : jsstring) : jsstring :=
  List.filter (fun u => negb (cls u)) s.

(** [s.replace(/\s+/g, ' ')]: [inRun] says that the previous code unit was
    white space, already replaced. *)
Fixpoint collapseFrom (inRun : bool) (s : jsstring) : jsstring :=
  match s with
  | [] => []
  | c :: s' =>
    if isWhiteSpace c
    then (if inRun then collapseFrom true s' else SPACE :: collapseFrom true s')
    else c :: collapseFrom false s'
  end.

Definition collapseWhiteSpace (s : jsstring) : jsstring := collapseFrom false s.

Fixpoint trimStart (s : jsstring) : jsstring :=
  match s with
  | [] => []
  | c :: s' => if isWhiteSpace c then trimStart s' else s
  end.

Fixpoint trimEnd (s : jsstring) : jsstring :=
  match s with
  | [] => []
  | c :: s' =>
    match trimEnd s' with
    | [] => if isWhiteSpace c then [] else [c]
    | r => c :: r
    end
  end.

Definition trim (s : jsstring) : jsstring := trimEnd (trimStart s).

(** [s.split(sep)] where the separator is one code unit of the class [sep]:
    the fields between separators, empty ones included. *)
Fixpoint splitBy (sep : N -> bool) (s : jsstring) : list jsstring :=
  match s with
  | [] => [[]]
  | c :: s' =>
    if sep c then [] :: splitBy sep s'
    else
      match splitBy sep s' with
      | w :: ws => (c :: w) :: ws
      | [] => [[c]]
      end
  end.

Definition split (sep : N) (s : jsstring) : list jsstring :=
  splitBy (fun c => (c =? sep)%N) s.

(** [words.join(sep)] *)
Fixpoint join (sep : jsstring) (words : list jsstring) : jsstring :=
  match words with
  | [] => []
  | [w] => w
  | w :: ws => w ++ sep ++ join sep ws
  end.

(** [String.prototype.toLowerCase] is a built-in of the engine and is not
    part of the repository: the diff engine is parameterised by it. *)
Class LowerCase := toLowerCase : jsstring -> jsstring.

(** *** [computeDiff] *)

(** The closure [tokenize] of [computeDiff]. *)
Definition tokenize (text : jsstring) : list jsstring :=
  List.filter (fun t => (0 <? length t)%nat)
    (split SPACE
       (trim
          (collapseWhiteSpace
             (replaceAll doubleDanda [SPACE; doubleDanda; SPACE]
                (replaceAll danda [SPACE; danda; SPACE] text))))).

(** [word.replace(/[।॥\d०१२३४५६७८९]/g, '').replace(/ं/g, 'म्')
        .replace(/ः/g, '').trim()]: [normalizeWord] before [toLowerCase]. *)
Definition stripped (c : N) : bool :=
  (c =? danda)%N || (c =? doubleDanda)%N || isAsciiDigit c || isDevanagariDigit c.

Definition stripMarks (word : jsstring) : jsstring :=
  trim
    (replaceAll visarga []
       (replaceAll anusvara [ma; virama] (removeAll stripped word))).

Definition normalizeWord `{LowerCase} (word : jsstring) : jsstring :=
  match word with
  | [] => []
  | _ => toLowerCase (stripMarks word)
  end.

(** What the callback of [map] returns for one word: the word itself, or the
    word inside a [span] of class [diff-match] or [diff-different]. *)
Inductive piece : Type :=
  | Plain (word : jsstring)
  | SpanMatch (word : jsstring)
  | SpanDifferent (word : jsstring).

Definition quote : jsstring := [34%N].

Definition html (p : piece) : jsstring :=
  match p with
  | Plain word => word
  | SpanMatch word =>
    units "<span class=" ++ quote ++ units "diff-match" ++ quote ++ units ">"
      ++ word ++ units "</span>"
  | SpanDifferent word =>
    units "<span class=" ++ quote ++ units "diff-different" ++ quote ++ units ">"
      ++ word ++ units "</span>"
  end.

(** [['।', '॥'].includes(word)] *)
Definition isDanda (word : jsstring) : bool :=
  bool_decide (word = [danda]) || bool_decide (word = [doubleDanda]).

(** [/^[०-९0-9]+$/.test(word)] *)
Definition isNumeral (word : jsstring) : bool :=
  match word with
  | [] => false
  | _ => forallb (fun c => isDevanagariDigit c || isAsciiDigit c) word
  end.

Definition skipped (word : jsstring) : bool := isDanda word || isNumeral word.

(** The callback shared by the four [map] calls; [isMatched] stands for the
    test [set.has(...)] of each of them. *)
Definition annotate (isMatched : bool) (word : jsstring) : piece :=
  if skipped word then Plain word
  else if isMatched then SpanMatch word
  else SpanDifferent word.

(** [new Set(words.map(w => this.normalizeWord(w)).filter(w => w.length > 0))] *)
Definition wordSet `{LowerCase} (words : list jsstring) : gset jsstring :=
  list_to_set
    (List.filter (fun w => (0 <? length w)%nat) (normalizeWord <$> words)).

Record DiffResult := { sourceHtml : jsstring; targetHtml : jsstring }.

(** [alignment.source_matched_positions || alignment.matched_positions || []]
    as a [Set]; an array is truthy even when empty. *)
Definition sourceMatchedPositions (al : Alignment) : gset Z :=
  list_to_set
    (match source_matched_positions al with
     | Some l => l
     | None =>
       match matched_positions al with
       | Some l => l
       | None => []
       end
     end).

Definition alignedSourcePieces (sourceWords : list jsstring) (al : Alignment)
    : list piece :=
  imap
    (fun idx word =>
       annotate (bool_decide (Z.of_nat idx ∈ sourceMatchedPositions al)) word)
    sourceWords.

Definition alignedTargetPieces `{LowerCase}
    (sourceWords targetWords : list jsstring) (al : Alignment) : list piece :=
  let sourceWordSet :=
    wordSet (match source_words al with Some l => l | None => sourceWords end) in
  (fun word => annotate (bool_decide (normalizeWord word ∈ sourceWordSet)) word)
    <$> targetWords.

Definition diffWithAlignment `{LowerCase}
    (sourceWords targetWords : list jsstring) (al : Alignment) : DiffResult :=
  {| sourceHtml := join [SPACE] (html <$> alignedSourcePieces sourceWords al);
     targetHtml :=
       join [SPACE] (html <$> alignedTargetPieces sourceWords targetWords al) |}.

Definition lcsSourcePieces `{LowerCase} (sourceWords targetWords : list jsstring)
    : list piece :=
  let targetWordSet := wordSet targetWords in
  (fun word => annotate (bool_decide (normalizeWord word ∈ targetWordSet)) word)
    <$> sourceWords.

Definition lcsTargetPieces `{LowerCase} (sourceWords targetWords : list jsstring)
    : list piece :=
  let sourceWordSet := wordSet sourceWords in
  (fun word => annotate (bool_decide (normalizeWord word ∈ sourceWordSet)) word)
    <$> targetWords.

Definition diffWithLCS `{LowerCase} (sourceWords targetWords : list jsstring)
    : DiffResult :=
  {| sourceHtml := join [SPACE] (html <$> lcsSourcePieces sourceWords targetWords);
     targetHtml := join [SPACE] (html <$> lcsTargetPieces sourceWords targetWords) |}.

(** [text || ''] *)
Definition orText (o : option jsstring) : jsstring :=
  match o with
  | Some s => s
  | None => []
  end.

(** The test [alignment && alignment.target_words && alignment.matched_positions]
    of [computeDiff], on [shloka.metadata?.alignment]: the alignment to use,
    if any. *)
Definition usableAlignment (shloka : Shloka) : option Alignment :=
  match metadata shloka with
  | Some md =>
    match alignment md with
    | Some al =>
      match target_words al, matched_positions al with
      | Some _, Some _ => Some al
      | _, _ => None
      end
    | None => None
    end
  | None => None
  end.

Definition computeDiff `{LowerCase} (shloka : Shloka) : DiffResult :=
  let sourceText := orText (source_text shloka) in
  let targetText := orText (matched_target_text shloka) in
  let sourceWords := tokenize sourceText in
  let targetWords := tokenize targetText in
  match usableAlignment shloka with
  | Some al => diffWithAlignment sourceWords targetWords al
  | None => diffWithLCS sourceWords targetWords
  end.

(** The case mapping of ASCII letters, code unit by code unit: what
    [toLowerCase] does on text made of ASCII and Devanagari. *)
Definition asciiLowerUnit (c : N) : N :=
  if ((65 <=? c) && (c <=? 90))%N then (c + 32)%N else c.

Definition asciiLower : LowerCase := fun s => asciiLowerUnit <$> s.

(** *** Reading the results *)

(** A record that is not matched, or that carries its similarity. *)
Definition scored (shloka : Shloka) : bool :=
  negb (truthyBool (has_match shloka))
  || match similarity shloka with Some _ => true | None => false end.

(** [x] rounded to one decimal is [n / 10]. *)
Definition nearestTenth (x : Q) (n : Z) : Prop :=
  (inject_Z n - (1 # 2) <= x * 10 /\ x * 10 < inject_Z n + (1 # 2))%Q.

(** The tokens that are layout and numbering. *)
Definition standaloneDanda (word : jsstring) : Prop :=
  word = [danda] \/ word = [doubleDanda].

Definition pureNumeral (word : jsstring) : Prop :=
  word <> []
  /\ Forall (fun c => isDevanagariDigit c = true \/ isAsciiDigit c = true) word.

(** What the proofs about [normalizeWord] use of [toLowerCase]: it maps the
    empty string to itself, it is idempotent, and it makes neither white space
    at the ends nor any of the marks that [normalizeWord] removes. *)
Class LowerCaseLaws `{LowerCase} : Prop := {
  lower_nil : toLowerCase [] = [];
  lower_idem : forall s, toLowerCase (toLowerCase s) = toLowerCase s;
  lower_clean :
    forall s, stripMarks s = s -> stripMarks (toLowerCase s) = toLowerCase s
}.

(** [toLowerCase] and the removal of the marks can be done in either order on
    [s]. *)
Definition caseRegular `{LowerCase} (s : jsstring) : Prop :=
  toLowerCase (stripMarks s) = stripMarks (toLowerCase s).

(** The code units that [normalizeWord] looks for or writes. *)
Definition inspected (c : N) : bool :=
  stripped c || isWhiteSpace c || (c =? anusvara)%N || (c =? visarga)%N
  || (c =? ma)%N || (c =? virama)%N.

(** A token: not empty, without white space, and a danda only alone. *)
Definition wellFormedToken (t : jsstring) : Prop :=
  t <> []
  /\ Forall (fun c => isWhiteSpace c = false) t
  /\ (t = [danda] \/ t = [doubleDanda]
      \/ Forall (fun c => c <> danda /\ c <> doubleDanda) t).

(** A code unit that [stripMarks] leaves where it is. *)
Definition kept (c : N) : Prop :=
  stripped c = false /\ c <> anusvara /\ c <> visarga.

(** The two [replace] calls of [tokenize] that put a danda between spaces. *)
Definition isolateDandas (text : jsstring) : jsstring :=
  replaceAll doubleDanda [SPACE; doubleDanda; SPACE]
    (replaceAll danda [SPACE; danda; SPACE] text).

(** The maximal runs without white space of a string. *)
Definition words (s : jsstring) : list jsstring :=
  List.filter (fun t => (0 <? length t)%nat) (splitBy isWhiteSpace s).

(** Two lists of fields that start with the same field and then have the same
    fields that are not empty. *)
Definition sameWords (l l' : list jsstring) : Prop :=
  hd [] l = hd [] l'
  /\ List.filter (fun t => (0 <? length t)%nat) (tl l)
     = List.filter (fun t => (0 <? length t)%nat) (tl l').

Definition dandaFree (t : jsstring) : Prop :=
  Forall (fun c => c <> danda /\ c <> doubleDanda) t.

Definition dandaField (t : jsstring) : Prop :=
  t = [danda] \/ t = [doubleDanda] \/ dandaFree t.

(** *** Sample data *)

(** The records of the scenario of the statistics. *)
Definition scenarioRecords : list Shloka :=
  [ {| shloka_id := Some "s1"; source_id := None; book := None; chapter := None;
       verse := None; parva_id := None; parva_name := None; upaparva_id := None;
       upaparva_name := None; adhyaya_id := None; adhyaya_name := None;
       has_match := Some true; similarity := Some (95 # 100);
       match_corpus := Some "ce"; many_to_one := None; one_to_many := None;
       source_text := None; matched_target_text := None; metadata := None |};
    {| shloka_id := Some "s2"; source_id := None; book := None; chapter := None;
       verse := None; parva_id := None; parva_name := None; upaparva_id := None;
       upaparva_name := None; adhyaya_id := None; adhyaya_name := None;
       has_match := Some false; similarity := None; match_corpus := None;
       many_to_one := None; one_to_many := None; source_text := None;
       matched_target_text := None; metadata := None |} ].

(** A matched record without [similarity]. *)
Definition unscoredShloka : Shloka :=
  {| shloka_id := Some "s1"; source_id := None; book := None; chapter := None;
     verse := None; parva_id := None; parva_name := None; upaparva_id := None;
     upaparva_name := None; adhyaya_id := None; adhyaya_name := None;
     has_match := Some true; similarity := None; match_corpus := None;
     many_to_one := None; one_to_many := None; source_text := None;
     matched_target_text := None; metadata := None |}.

(** An alignment whose matched positions are 0 and 1. *)
Definition firstTwoMatched : Alignment :=
  {| source_words := None; target_words := Some [];
     matched_positions := Some [0%Z; 1%Z]; source_matched_positions := None |}.

Definition firstMatched : Alignment :=
  {| source_words := None; target_words := Some [];
     matched_positions := Some [0%Z]; source_matched_positions := None |}.

Definition sourceVerse : jsstring := units "धर्मक्षेत्रे कुरुक्षेत्रे ।".
Definition targetVerse : jsstring := units "धर्मक्षेत्रे समवेता ।".

(** A matched record with the alignment [firstTwoMatched]. *)
Definition alignedShloka : Shloka :=
  {| shloka_id := Some "s1"; source_id := None; book := None; chapter := None;
     verse := None; parva_id := None; parva_name := None; upaparva_id := None;
     upaparva_name := None; adhyaya_id := None; adhyaya_name := None;
     has_match := Some true; similarity := Some (8 # 10);
     match_corpus := Some "mndutt"; many_to_one := None; one_to_many := None;
     source_text := Some sourceVerse; matched_target_text := Some targetVerse;
     metadata := Some {| alignment := Some firstTwoMatched |} |}.

End Dashboard.

(** ** Helpers of static/paths.js and the views of static/dashboard.js *)

Module PathsFormat.

(** [DATA_PATHS.mappings.book], which [getBookMappingPath] calls. *)
Definition getBookMappingPath (bookNumber : Z) : string :=
  "data/book_" +:+ padStart 2 (String_of_number bookNumber) +:+ "_mappings.json".

(** [formatPercent], for counts. *)
Definition formatPercent (part total : nat) : string :=
  if (total =? 0)%nat then "0%"
  else Dashboard.toFixed1 (Dashboard.percentage part total) +:+ "%".

Definition getSimilarityClass (similarity : option Q) : string :=
  if Dashboard.geNumber similarity (9 # 10) then "high"
  else if Dashboard.geNumber similarity (7 # 10) then "medium"
  else "low".

Definition getMatchStatusClass (shloka : Shloka) : string :=
  if negb (truthyBool (has_match shloka)) then "unmatched"
  else if Dashboard.geNumber (similarity shloka) (9 # 10) then "matched"
  else "partial".

(** [truncateText(text, maxLength)]; a text that is [undefined] or empty is
    returned as it is. *)
Definition truncateText (text : option jsstring) (maxLength : nat)
    : option jsstring :=
  match text with
  | None => None
  | Some t =>
    if (length t =? 0)%nat || (length t <=? maxLength)%nat then Some t
    else Some (take maxLength t ++ Dashboard.units "...")
  end.

End PathsFormat.

Module PathsOrder.
Import Paths.

(** One of the keys of the record is a property name of [Object.prototype]. *)
Definition inheritedKeys (shloka : Shloka) : bool :=
  inheritedKey (keysOf shloka).1.1 || inheritedKey (keysOf shloka).1.2
  || inheritedKey (keysOf shloka).2.

(** No key of the hierarchy, at any level, is a property name of
    [Object.prototype]. *)
Definition ownKeysPlain (hierarchy : gmap string ParvaNode) : Prop :=
  map_Forall
    (fun pk p =>
       inheritedKey pk = false
       /\ map_Forall
            (fun uk u =>
               inheritedKey uk = false
               /\ map_Forall (fun ak _ => inheritedKey ak = false) (adhyayas u))
            (upaparvas p))
    hierarchy.

(** The leaves hold the records of their keys, in the order of the input. *)
Definition inOrder (hierarchy : gmap string ParvaNode) (processed : list Shloka)
    : Prop :=
  forall pk uk ak,
    match bucketAt hierarchy pk uk ak with
    | Some a =>
      shlokas a
      = List.filter (fun r => bool_decide (keysOf r = (pk, uk, ak))) processed
      /\ shlokas a <> []
    | None =>
      List.filter (fun r => bool_decide (keysOf r = (pk, uk, ak))) processed = []
    end.

(** The display names that [groupByHierarchy] computes for a record. *)
Definition parvaNameOf (shloka : Shloka) : string :=
  orString (Some (parvaName (parseSrirangaHierarchy shloka))) (keysOf shloka).1.1.

Definition upaparvaNameOf (shloka : Shloka) : string :=
  orString (Some (upaparvaName (parseSrirangaHierarchy shloka)))
    (keysOf shloka).1.2.

Definition adhyayaNameOf (shloka : Shloka) : string :=
  orString (Some (adhyayaName (parseSrirangaHierarchy shloka))) (keysOf shloka).2.

(** The first record of [records] that satisfies [p]. *)
Definition firstWith (p : Shloka -> bool) (records : list Shloka) : option Shloka :=
  head (List.filter p records).

(** The upaparva node [hierarchy[pk].upaparvas[uk]], if there. *)
Definition upaparvaAt (hierarchy : gmap string ParvaNode) (pk uk : string)
    : option UpaparvaNode :=
  match hierarchy !! pk with
  | Some p => upaparvas p !! uk
  | None => None
  end.

(** The nodes found by [nodeAt] are named after the first processed record
    with their key, and a key has a node exactly when a processed record has
    that key. *)
Definition namedAfterFirst {K N : Type} `{EqDecision K} (key : Shloka -> K)
    (nameOf : Shloka -> string) (name : N -> string) (nodeAt : K -> option N)
    (processed : list Shloka) : Prop :=
  forall k,
    match nodeAt k with
    | Some n =>
      exists r,
        firstWith (fun r => bool_decide (key r = k)) processed = Some r
        /\ name n = nameOf r
    | None => firstWith (fun r => bool_decide (key r = k)) processed = None
    end.

(** The three levels of names. *)
Definition allNamed (hierarchy : gmap string ParvaNode) (processed : list Shloka)
    : Prop :=
  namedAfterFirst (fun r => (keysOf r).1.1) parvaNameOf pv_name
    (fun pk => hierarchy !! pk) processed
  /\ namedAfterFirst (fun r => (keysOf r).1) upaparvaNameOf u_name
       (fun k => upaparvaAt hierarchy k.1 k.2) processed
  /\ namedAfterFirst keysOf adhyayaNameOf a_name
       (fun k => bucketAt hierarchy k.1.1 k.1.2 k.2) processed.

(** A string without its leading zeros. *)
Fixpoint stripZeros (s : string) : string :=
  match s with
  | String c rest => if Ascii.eqb c "0" then stripZeros rest else s
  | EmptyString => EmptyString
  end.

(** The record has no usable hierarchy identifiers: its keys come from the
    chapter. *)
Definition byChapter (shloka : Shloka) : bool :=
  negb (truthyString (parva_id shloka) && truthyString (upaparva_id shloka)
        && truthyString (adhyaya_id shloka)).

(** A record of the adhyaya [A001] of [U01] in [P02], with a parva name. *)
Definition namedShloka (name : string) : Shloka :=
  {| shloka_id := None; source_id := None; book := Some 2%Z; chapter := None;
     verse := None; parva_id := Some "P02"; parva_name := Some name;
     upaparva_id := Some "U01"; upaparva_name := None;
     adhyaya_id := Some "A001"; adhyaya_name := None; has_match := None;
     similarity := None; match_corpus := None; many_to_one := None;
     one_to_many := None; source_text := None; matched_target_text := None;
     metadata := None |}.

End PathsOrder.

Module PathsId.

(** The result of [parseSrirangaId]; a number that is [NaN] is [None]. *)
Record ParsedId := {
  book : option Z;
  parva : jsstring;
  upaparva : jsstring;
  adhyaya : jsstring;
  verseDevanagari : jsstring;
  verseNumeric : option Z
}.

Definition UNDERSCORE : N := 95.

(** The longest prefix of ASCII digits, and what follows it. *)
Fixpoint digitRun (s : jsstring) : jsstring * jsstring :=
  match s with
  | [] => ([], [])
  | c :: s' =>
    if Dashboard.isAsciiDigit c
    then let '(d, r) := digitRun s' in (c :: d, r)
    else ([], s)
  end.

(** [s] without the prefix [p], when it starts with [p]. *)
Fixpoint stripPrefix (p s : jsstring) : option jsstring :=
  match p, s with
  | [], _ => Some s
  | a :: p', b :: s' => if (a =? b)%N then stripPrefix p' s' else None
  | _ :: _, [] => None
  end.

(** The value of a string of decimal digits. *)
Definition digitsValue (d : jsstring) : Z :=
  foldl (fun acc c => (acc * 10 + (Z.of_N c - 48))%Z) 0%Z d.

(** [parseInt(s, 10)]: white space is skipped, a sign is read, then the
    longest run of digits; without a digit the result is [NaN]. *)
Definition parseInt (s : jsstring) : option Z :=
  let s1 := Dashboard.trimStart s in
  let '(sign, s2) :=
    match s1 with
    | c :: r =>
      if (c =? 45)%N then ((-1)%Z, r)
      else if (c =? 43)%N then (1%Z, r)
      else (1%Z, s1)
    | [] => (1%Z, [])
    end in
  match digitRun s2 with
  | ([], _) => None
  | (d, _) => Some (sign * digitsValue d)%Z
  end.

(** [s.padStart(n, '0')] on code units. *)
Definition padStartUnits (n : nat) (s : jsstring) : jsstring :=
  replicate (n - length s) 48%N ++ s.

(** A match of [/sriranga_(\d+)_(\d+)_(\d+)/] that starts at the first code
    unit of [s].  A group [\d+] that is followed by an underscore, or that ends
    the pattern, can only be a whole run of digits. *)
Definition matchHere (s : jsstring) : option (jsstring * jsstring * jsstring) :=
  match stripPrefix (Dashboard.units "sriranga_") s with
  | Some r1 =>
    match digitRun r1 with
    | (c1 :: d1, u1 :: r2) =>
      if (u1 =? UNDERSCORE)%N then
        match digitRun r2 with
        | (c2 :: d2, u2 :: r3) =>
          if (u2 =? UNDERSCORE)%N then
            match digitRun r3 with
            | (c3 :: d3, _) => Some (c1 :: d1, c2 :: d2, c3 :: d3)
            | ([], _) => None
            end
          else None
        | _ => None
        end
      else None
    | _ => None
    end
  | None => None
  end.

(** [id.match(/sriranga_(\d+)_(\d+)_(\d+)/)]: the groups of the leftmost
    match. *)
Fixpoint matchNew (s : jsstring) : option (jsstring * jsstring * jsstring) :=
  match matchHere s with
  | Some groups => Some groups
  | None =>
    match s with
    | [] => None
    | _ :: s' => matchNew s'
    end
  end.

Definition parseSrirangaId (id : jsstring) : ParsedId :=
  match matchNew id with
  | Some (g1, g2, g3) =>
    {| book := parseInt g1;
       parva := Dashboard.units "P" ++ padStartUnits 2 g1;
       upaparva := Dashboard.units "U01";
       adhyaya := Dashboard.units "A" ++ padStartUnits 3 g2;
       verseDevanagari := [];
       verseNumeric := parseInt g3 |}
  | None =>
    let parts := Dashboard.split UNDERSCORE id in
    if (6 <=? length parts)%nat then
      {| book := parseInt (nth 0 parts []);
         parva := nth 1 parts [];
         upaparva := nth 2 parts [];
         adhyaya := nth 3 parts [];
         verseDevanagari := nth 4 parts [];
         verseNumeric := parseInt (nth 5 parts []) |}
    else
      {| book := Some 0%Z; parva := []; upaparva := []; adhyaya := [];
         verseDevanagari := []; verseNumeric := Some 0%Z |}
  end.

(** A string of decimal digits. *)
Definition digitString (d : jsstring) : Prop :=
  d <> [] /\ Forall (fun c => Dashboard.isAsciiDigit c = true) d.

(** [s] does not go on with a digit. *)
Definition noDigitAhead (s : jsstring) : Prop :=
  match s with
  | c :: _ => Dashboard.isAsciiDigit c = false
  | [] => True
  end.

(** The number of underscores of [s]. *)
Definition underscores (s : jsstring) : nat :=
  length (List.filter (fun c => (c =? UNDERSCORE)%N) s).

End PathsId.

Module DashboardView.

(** The method [truncateText] of the dashboard. *)
Definition truncateText (text : option jsstring) (maxLength : nat) : jsstring :=
  match text with
  | None => []
  | Some t =>
    if (length t =? 0)%nat then []
    else if (length t <=? maxLength)%nat then t
    else take maxLength t ++ Dashboard.units "..."
  end.

(** [s.id || s.source_id] *)
Definition idOrSourceId (shloka : Shloka) : option string :=
  if truthyString (shloka_id shloka) then shloka_id shloka else source_id shloka.

(** [this.data.find(s => (s.id || s.source_id) === shlokaId)] of
    [selectShloka]: the record that becomes [selectedShloka], if any. *)
Definition selectShloka (data : list Shloka) (shlokaId : string) : option Shloka :=
  List.find
    (fun s =>
       match idOrSourceId s with
       | Some x => String.eqb x shlokaId
       | None => false
       end)
    data.

(** The [data-] attributes that [renderShlokas] gives to the item of a
    record. *)
Record ItemData := {
  dataId : string;
  dataFilter : string;
  dataCorpus : string;
  dataManyToOne : string;
  dataOneToMany : string
}.

Definition itemData (shloka : Shloka) : ItemData :=
  {| dataId :=
       match idOrSourceId shloka with
       | Some x => x
       | None => "undefined"
       end;
     dataFilter := PathsFormat.getMatchStatusClass shloka;
     dataCorpus := orString (match_corpus shloka) "none";
     dataManyToOne := if truthyBool (many_to_one shloka) then "true" else "false";
     dataOneToMany := if truthyBool (one_to_many shloka) then "true" else "false" |}.

(** The value of [show] that [applyFilter] computes for an item. *)
Definition show (filter : string) (item : ItemData) : bool :=
  if String.eqb filter "all" then true
  else if String.eqb filter "matched" || String.eqb filter "partial"
          || String.eqb filter "unmatched"
  then String.eqb (dataFilter item) filter
  else if String.eqb filter "mndutt" || String.eqb filter "ce"
          || String.eqb filter "sarit"
  then String.eqb (dataCorpus item) filter
  else if String.eqb filter "many-to-one" then String.eqb (dataManyToOne item) "true"
  else if String.eqb filter "one-to-many" then String.eqb (dataOneToMany item) "true"
  else false.

(** The records whose items are not hidden by [applyFilter(filter)]. *)
Definition visible (filter : string) (records : list Shloka) : list Shloka :=
  List.filter (fun s => show filter (itemData s)) records.

(** The word inside a piece. *)
Definition wordOf (p : Dashboard.piece) : jsstring :=
  match p with
  | Dashboard.Plain word => word
  | Dashboard.SpanMatch word => word
  | Dashboard.SpanDifferent word => word
  end.

End DashboardView.

Module HierarchyFacts.
Import Paths.

Section Children.
Context {A : Type}.
Implicit Types (m : gmap string A) (k : string) (c fresh : A).

Lemma sumOver_empty (f : A -> nat) : sumOver f (∅ : gmap string A) = 0.
Proof. unfold sumOver. by rewrite map_to_list_empty. Qed.

Lemma sumOver_insert (f : A -> nat) m k c :
  sumOver f (<[k:=c]> m) = f c + sumOver f (delete k m).
Proof.
  unfold sumOver. rewrite <- (insert_delete_eq m k c).
  rewrite map_to_list_insert by apply lookup_delete_eq. done.
Qed.

Lemma sumOver_lookup (f : A -> nat) m k c :
  m !! k = Some c -> sumOver f m = f c + sumOver f (delete k m).
Proof.
  intros Hk. unfold sumOver. by rewrite <- (map_to_list_delete m k c Hk).
Qed.

Lemma sumOver_ext (f g : A -> nat) m :
  (forall k c, m !! k = Some c -> f c = g c) -> sumOver f m = sumOver g m.
Proof.
  intros Hfg. unfold sumOver.
  assert (Hall : Forall (fun kv => f kv.2 = g kv.2) (map_to_list m)).
  { apply Forall_forall. intros [k c] Hin. apply (Hfg k).
    by apply elem_of_map_to_list. }
  induction Hall as [|kv l Hkv _ IH]; simpl; [done|]. by rewrite Hkv, IH.
Qed.

Lemma collect_empty {B} (f : A -> list B) : collect f (∅ : gmap string A) = [].
Proof. unfold collect. by rewrite map_to_list_empty. Qed.

Lemma collect_insert {B} (f : A -> list B) m k c :
  collect f (<[k:=c]> m) ≡ₚ f c ++ collect f (delete k m).
Proof.
  unfold collect. rewrite <- (insert_delete_eq m k c).
  rewrite map_to_list_insert by apply lookup_delete_eq. done.
Qed.

Lemma collect_lookup {B} (f : A -> list B) m k c :
  m !! k = Some c -> collect f m ≡ₚ f c ++ collect f (delete k m).
Proof.
  intros Hk. unfold collect. by rewrite <- (map_to_list_delete m k c Hk).
Qed.

(** What [obj[k]] is once [if (!obj[k]) obj[k] = fresh] has run. *)
Lemma getProp_ensureProp m k fresh c :
  getProp (ensureProp m k fresh) k = Own c ->
  (m !! k = Some c /\ ensureProp m k fresh = m)
  \/ (m !! k = None /\ inheritedKey k = false /\ c = fresh
      /\ ensureProp m k fresh = <[k:=fresh]> m).
Proof.
  unfold ensureProp, getProp.
  destruct (m !! k) as [c0|] eqn:Hk.
  - rewrite Hk. intros [= ->]. by left.
  - destruct (inheritedKey k) eqn:Hin.
    + rewrite Hk. discriminate.
    + rewrite lookup_insert_eq. intros [= <-]. by right.
Qed.

Lemma ensureProp_plain m k fresh :
  inheritedKey k = false -> exists c, getProp (ensureProp m k fresh) k = Own c.
Proof.
  intros Hin. unfold ensureProp, getProp.
  destruct (m !! k) as [c0|] eqn:Hk.
  - rewrite Hk. eauto.
  - rewrite Hin, lookup_insert_eq. eauto.
Qed.

Lemma ensureProp_lookup_ne m k k' fresh :
  k <> k' -> ensureProp m k fresh !! k' = m !! k'.
Proof.
  intros Hne. unfold ensureProp. destruct (getProp m k); try done.
  by rewrite lookup_insert_ne.
Qed.

Lemma ensureProp_Forall (P : string -> A -> Prop) m k fresh :
  map_Forall P m -> P k fresh -> map_Forall P (ensureProp m k fresh).
Proof.
  intros Hm Hfresh. unfold ensureProp. destruct (getProp m k); try done.
  by apply map_Forall_insert_2.
Qed.

Lemma getProp_Forall (P : string -> A -> Prop) m k c :
  map_Forall P m -> getProp m k = Own c -> P k c.
Proof.
  intros Hm. unfold getProp. destruct (m !! k) as [c0|] eqn:Hk.
  - intros [= <-]. by apply (Hm k).
  - by destruct (inheritedKey k).
Qed.

Lemma sumOver_update (f : A -> nat) m k fresh c c' :
  getProp (ensureProp m k fresh) k = Own c -> f fresh = 0 ->
  sumOver f (<[k:=c']> (ensureProp m k fresh)) + f c = f c' + sumOver f m.
Proof.
  intros Hget Hfresh.
  destruct (getProp_ensureProp _ _ _ _ Hget) as [[Hk ->]|(Hk & _ & -> & ->)].
  - rewrite sumOver_insert, (sumOver_lookup f m k c Hk). lia.
  - rewrite insert_insert_eq, sumOver_insert, delete_id by done. lia.
Qed.

Lemma collect_update {B} (f : A -> list B) m k fresh c c' (x : list B) :
  getProp (ensureProp m k fresh) k = Own c -> f fresh = [] ->
  f c' ≡ₚ f c ++ x ->
  collect f (<[k:=c']> (ensureProp m k fresh)) ≡ₚ collect f m ++ x.
Proof.
  intros Hget Hfresh Hc'.
  destruct (getProp_ensureProp _ _ _ _ Hget) as [[Hk ->]|(Hk & _ & -> & ->)].
  - rewrite collect_insert, (collect_lookup f m k c Hk), Hc'.
    rewrite <- !(assoc_L (++)). f_equiv. apply Permutation_app_comm.
  - rewrite insert_insert_eq, collect_insert, delete_id, Hc', Hfresh by done.
    simpl. apply Permutation_app_comm.
Qed.

Lemma childrenStats_update (stats : A -> Stats) m k fresh c c' b :
  getProp (ensureProp m k fresh) k = Own c -> stats fresh = zeroStats ->
  stats c' = bump b (stats c) ->
  childrenStats stats (<[k:=c']> (ensureProp m k fresh))
  = bump b (childrenStats stats m).
Proof.
  intros Hget Hfresh Hc'.
  pose proof (sumOver_update (fun c => matched (stats c)) m k fresh c c' Hget) as Hm.
  pose proof (sumOver_update (fun c => unmatched (stats c)) m k fresh c c' Hget) as Hu.
  pose proof (sumOver_update (fun c => total (stats c)) m k fresh c c' Hget) as Ht.
  simpl in Hm, Hu, Ht. rewrite Hfresh, Hc' in Hm, Hu, Ht.
  specialize (Hm eq_refl). specialize (Hu eq_refl). specialize (Ht eq_refl).
  unfold childrenStats, bump. destruct b; simpl in *; f_equal; lia.
Qed.
End Children.


Local Abbreviation freshParva n :=
  {| upaparvas := ∅; pv_stats := zeroStats; pv_name := n |}.
Local Abbreviation freshUpaparva n :=
  {| adhyayas := ∅; u_stats := zeroStats; u_name := n |}.
Local Abbreviation freshAdhyaya n :=
  {| shlokas := []; a_stats := zeroStats; a_name := n |}.

(** The shape of a step of the loop that does not throw. *)
Lemma addShloka_Normal hierarchy shloka hierarchy' :
  addShloka hierarchy shloka = Normal hierarchy' ->
  exists pn un an pname uname aname,
    let pk := (keysOf shloka).1.1 in
    let uk := (keysOf shloka).1.2 in
    let ak := (keysOf shloka).2 in
    let b := truthyBool (has_match shloka) in
    let hierarchy1 := ensureProp hierarchy pk (freshParva pname) in
    let upaparvas1 := ensureProp (upaparvas pn) uk (freshUpaparva uname) in
    let adhyayas1 := ensureProp (adhyayas un) ak (freshAdhyaya aname) in
    getProp hierarchy1 pk = Own pn
    /\ getProp upaparvas1 uk = Own un
    /\ getProp adhyayas1 ak = Own an
    /\ hierarchy' =
        <[pk :=
           {| upaparvas :=
                <[uk :=
                   {| adhyayas :=
                        <[ak :=
                           {| shlokas := shlokas an ++ [shloka];
                              a_stats := bump b (a_stats an);
                              a_name := a_name an |}]> adhyayas1;
                      u_stats := bump b (u_stats un);
                      u_name := u_name un |}]> upaparvas1;
              pv_stats := bump b (pv_stats pn);
              pv_name := pv_name pn |}]> hierarchy1.
Proof.
  unfold addShloka, keysOf. cbv zeta. simpl fst. simpl snd. intros H.
  repeat
    match type of H with
    | context [match getProp ?m ?k with _ => _ end] =>
      destruct (getProp m k) eqn:?; try discriminate
    end.
  injection H as <-. do 6 eexists. repeat split; eassumption.
Qed.

(** A step throws only on a key inherited from [Object.prototype]. *)
Lemma addShloka_plain hierarchy shloka :
  inheritedKey (keysOf shloka).1.1 = false ->
  inheritedKey (keysOf shloka).1.2 = false ->
  inheritedKey (keysOf shloka).2 = false ->
  exists hierarchy', addShloka hierarchy shloka = Normal hierarchy'.
Proof.
  unfold addShloka, keysOf. cbv zeta. simpl fst. simpl snd. intros Hp Hu Ha.
  edestruct (ensureProp_plain hierarchy) as [pn ->]; [exact Hp|].
  edestruct (ensureProp_plain (upaparvas pn)) as [un ->]; [exact Hu|].
  edestruct (ensureProp_plain (adhyayas un)) as [an ->]; [exact Ha|].
  eauto.
Qed.

Lemma leafStats_snoc records shloka :
  leafStats (records ++ [shloka])
  = bump (truthyBool (has_match shloka)) (leafStats records).
Proof.
  unfold leafStats, bump. rewrite !List.filter_app, !length_app. simpl.
  destruct (truthyBool (has_match shloka)); simpl; f_equal; lia.
Qed.

Lemma leafStats_balanced records : balanced (leafStats records).
Proof.
  unfold balanced, leafStats. simpl.
  induction records as [|s records IH]; simpl; [done|].
  destruct (truthyBool (has_match s)); simpl; lia.
Qed.

Lemma childrenStats_balanced {A} (stats : A -> Stats) (m : gmap string A) :
  map_Forall (fun _ c => balanced (stats c)) m -> balanced (childrenStats stats m).
Proof.
  intros Hall. unfold balanced, childrenStats, sumOver. simpl.
  assert (H : Forall (fun kv => balanced (stats kv.2)) (map_to_list m)).
  { apply Forall_forall. intros [k c] Hin. apply (Hall k).
    by apply elem_of_map_to_list. }
  induction H as [|kv l Hkv _ IH]; simpl; [done|].
  unfold balanced in Hkv. lia.
Qed.

(** The loop invariant is kept by every step that returns. *)
Lemma addShloka_inv hierarchy shloka hierarchy' :
  hierarchyInv hierarchy ->
  addShloka hierarchy shloka = Normal hierarchy' ->
  hierarchyInv hierarchy'.
Proof.
  intros Hinv Hstep.
  destruct (addShloka_Normal _ _ _ Hstep)
    as (pn & un & an & pname & uname & aname & Hp & Hu & Ha & ->).
  assert (Hfresh : parvaInv (freshParva pname)).
  { split; [|apply map_Forall_empty]. unfold childrenStats. simpl.
    by rewrite !sumOver_empty. }
  assert (Hpn : parvaInv pn).
  { eapply (getProp_Forall (fun _ p => parvaInv p)); [|exact Hp].
    by apply ensureProp_Forall. }
  destruct Hpn as [Hpstats Hpkids].
  assert (Hfreshu : upaparvaInv (freshUpaparva uname)).
  { split; [|apply map_Forall_empty]. unfold childrenStats. simpl.
    by rewrite !sumOver_empty. }
  assert (Hun : upaparvaInv un).
  { eapply (getProp_Forall (fun _ u => upaparvaInv u)); [|exact Hu].
    by apply ensureProp_Forall. }
  destruct Hun as [Hustats Hukids].
  assert (Han : adhyayaInv an).
  { eapply (getProp_Forall (fun _ a => adhyayaInv a)); [|exact Ha].
    by apply ensureProp_Forall. }
  apply map_Forall_insert_2; [|by apply ensureProp_Forall].
  split; simpl.
  - rewrite Hpstats. symmetry.
    by eapply (childrenStats_update u_stats); [exact Hu|done|simpl].
  - apply map_Forall_insert_2; [|by apply ensureProp_Forall].
    split; simpl.
    + rewrite Hustats. symmetry.
      by eapply (childrenStats_update a_stats); [exact Ha|done|simpl].
    + apply map_Forall_insert_2; [|by apply ensureProp_Forall].
      unfold adhyayaInv in *. simpl. by rewrite Han, leafStats_snoc.
Qed.

Lemma addShloka_leafShlokas hierarchy shloka hierarchy' :
  addShloka hierarchy shloka = Normal hierarchy' ->
  leafShlokas hierarchy' ≡ₚ leafShlokas hierarchy ++ [shloka].
Proof.
  intros Hstep.
  destruct (addShloka_Normal _ _ _ Hstep)
    as (pn & un & an & pname & uname & aname & Hp & Hu & Ha & ->).
  unfold leafShlokas.
  eapply collect_update; [exact Hp|simpl; by rewrite collect_empty|]. simpl.
  eapply collect_update; [exact Hu|simpl; by rewrite collect_empty|]. simpl.
  eapply collect_update; [exact Ha|done|]. done.
Qed.

Lemma groupFrom_inv shlokas hierarchy hierarchy' :
  hierarchyInv hierarchy ->
  groupFrom hierarchy shlokas = Normal hierarchy' ->
  hierarchyInv hierarchy'.
Proof.
  revert hierarchy. induction shlokas as [|s shlokas IH]; simpl; intros h Hinv.
  - by intros [= <-].
  - destruct (addShloka h s) as [h1|] eqn:Hstep; [|discriminate].
    apply IH. by eapply addShloka_inv.
Qed.

Lemma groupFrom_leafShlokas shlokas hierarchy hierarchy' :
  groupFrom hierarchy shlokas = Normal hierarchy' ->
  leafShlokas hierarchy' ≡ₚ leafShlokas hierarchy ++ shlokas.
Proof.
  revert hierarchy. induction shlokas as [|s shlokas IH]; simpl; intros h.
  - intros [= <-]. by rewrite app_nil_r.
  - destruct (addShloka h s) as [h1|] eqn:Hstep; [|discriminate].
    intros Hrest. rewrite (IH _ Hrest), (addShloka_leafShlokas _ _ _ Hstep).
    by rewrite <- (assoc_L (++)).
Qed.


Lemma sumOver_length_collect {A B} (f : A -> nat) (g : A -> list B)
    (m : gmap string A) :
  (forall k c, m !! k = Some c -> f c = length (g c)) ->
  sumOver f m = length (collect g m).
Proof.
  intros Hfg. unfold sumOver, collect.
  assert (H : Forall (fun kv => f kv.2 = length (g kv.2)) (map_to_list m)).
  { apply Forall_forall. intros [k c] Hin. apply (Hfg k).
    by apply elem_of_map_to_list. }
  induction H as [|kv l Hkv _ IH]; simpl; [done|].
  by rewrite length_app, Hkv, IH.
Qed.

Lemma leafTotals_length hierarchy :
  hierarchyInv hierarchy -> leafTotals hierarchy = length (leafShlokas hierarchy).
Proof.
  intros Hinv. unfold leafTotals, leafShlokas.
  apply sumOver_length_collect. intros pk p Hp.
  destruct (Hinv pk p Hp) as [_ Hus].
  apply sumOver_length_collect. intros uk u Hu.
  destruct (Hus uk u Hu) as [_ Has].
  apply sumOver_length_collect. intros ak a Ha.
  by rewrite (Has ak a Ha).
Qed.

Lemma hierarchyInv_empty : hierarchyInv ∅.
Proof. apply map_Forall_empty. Qed.

(** Where the records are. *)
Lemma update_lookup {A} (m : gmap string A) k fresh c k0 c0 :
  getProp (ensureProp m k fresh) k = Own c ->
  m !! k0 = Some c0 ->
  (k0 = k /\ c0 = c)
  \/ (forall c', <[k:=c']> (ensureProp m k fresh) !! k0 = Some c0).
Proof.
  intros Hget Hk0. destruct (decide (k0 = k)) as [->|Hne].
  - left. split; [done|].
    destruct (getProp_ensureProp _ _ _ _ Hget) as [[Hk _]|(Hk & _)]; congruence.
  - right. intros c'. by rewrite lookup_insert_ne, ensureProp_lookup_ne.
Qed.

Lemma addShloka_files hierarchy shloka hierarchy' :
  addShloka hierarchy shloka = Normal hierarchy' ->
  filedAt hierarchy' shloka (keysOf shloka).
Proof.
  intros Hstep.
  destruct (addShloka_Normal _ _ _ Hstep)
    as (pn & un & an & pname & uname & aname & Hp & Hu & Ha & ->).
  unfold filedAt, bucketAt. rewrite lookup_insert_eq. simpl.
  rewrite lookup_insert_eq. simpl. rewrite lookup_insert_eq.
  eexists. split; [done|]. simpl. apply elem_of_app. right. by left.
Qed.

Lemma addShloka_keeps hierarchy shloka hierarchy' record keys :
  addShloka hierarchy shloka = Normal hierarchy' ->
  filedAt hierarchy record keys ->
  filedAt hierarchy' record keys.
Proof.
  intros Hstep (a & Hbucket & Hin).
  destruct (addShloka_Normal _ _ _ Hstep)
    as (pn & un & an & pname & uname & aname & Hp & Hu & Ha & ->).
  unfold filedAt, bucketAt in *.
  destruct (hierarchy !! keys.1.1) as [p|] eqn:Hkp; [|done].
  destruct (upaparvas p !! keys.1.2) as [u|] eqn:Hku; [|done].
  destruct (update_lookup _ _ _ _ _ _ Hp Hkp) as [[-> ->]|Hother];
    [|rewrite Hother, Hku; eauto].
  rewrite lookup_insert_eq. simpl.
  destruct (update_lookup _ _ _ _ _ _ Hu Hku) as [[-> ->]|Hother];
    [|rewrite Hother; eauto].
  rewrite lookup_insert_eq. simpl.
  destruct (update_lookup _ _ _ _ _ _ Ha Hbucket) as [[-> ->]|Hother];
    [|rewrite Hother; eauto].
  rewrite lookup_insert_eq. eexists. split; [done|]. simpl.
  apply elem_of_app. by left.
Qed.

Lemma groupFrom_keeps shlokas hierarchy hierarchy' record keys :
  groupFrom hierarchy shlokas = Normal hierarchy' ->
  filedAt hierarchy record keys ->
  filedAt hierarchy' record keys.
Proof.
  revert hierarchy. induction shlokas as [|s shlokas IH]; simpl; intros h.
  - by intros [= <-].
  - destruct (addShloka h s) as [h1|] eqn:Hstep; [|discriminate].
    intros Hrest Hfiled. apply (IH _ Hrest). by eapply addShloka_keeps.
Qed.

Lemma groupFrom_files shlokas hierarchy hierarchy' record :
  groupFrom hierarchy shlokas = Normal hierarchy' ->
  record ∈ shlokas ->
  filedAt hierarchy' record (keysOf record).
Proof.
  revert hierarchy. induction shlokas as [|s shlokas IH]; simpl; intros h.
  - intros _ Hin. by apply elem_of_nil in Hin.
  - destruct (addShloka h s) as [h1|] eqn:Hstep; [|discriminate].
    intros Hrest [->|Hin]%elem_of_cons.
    + apply (groupFrom_keeps _ _ _ _ _ Hrest). by eapply addShloka_files.
    + by apply (IH _ Hrest).
Qed.

(** The keys of a record, and when they are safe. *)
Lemma inheritedKey_false k : k ∉ objectPrototypeKeys -> inheritedKey k = false.
Proof. intros Hk. by apply bool_decide_eq_false. Qed.

Lemma truthyString_Some o : truthyString o = true -> exists s, o = Some s /\ orString o "" = s /\ s <> "".
Proof.
  destruct o as [s|]; simpl; [|done].
  destruct (String.eqb s "") eqn:He; [done|]. intros _. exists s.
  repeat split. intros ->. by rewrite String.eqb_refl in He.
Qed.

Lemma orString_Some s d : s <> "" -> orString (Some s) d = s.
Proof.
  intros Hs. simpl. destruct (String.eqb_spec s ""); congruence.
Qed.

Lemma synthetic_key_plain (c : ascii) s :
  c = "P"%char \/ c = "U"%char \/ c = "A"%char ->
  inheritedKey (String c s) = false.
Proof.
  intros Hc. apply bool_decide_eq_false. unfold objectPrototypeKeys. intros Hin.
  repeat (apply elem_of_cons in Hin as [Heq|Hin];
          [injection Heq as -> _; by destruct Hc as [?|[?|?]]|]).
  by apply elem_of_nil in Hin.
Qed.

(** The keys are the three identifiers when all are given and not empty, and
    synthetic keys in [P01] otherwise: the default ['Unknown'] is never used. *)
Lemma keysOf_cases shloka :
  (exists p u a,
      parva_id shloka = Some p /\ upaparva_id shloka = Some u
      /\ adhyaya_id shloka = Some a /\ keysOf shloka = (p, u, a))
  \/ (exists x y, keysOf shloka = ("P01", String "U" x, String "A" y)).
Proof.
  unfold keysOf, parseSrirangaHierarchy.
  destruct (truthyString (parva_id shloka)) eqn:Hp; simpl;
    [destruct (truthyString (upaparva_id shloka)) eqn:Hu; simpl;
       [destruct (truthyString (adhyaya_id shloka)) eqn:Ha; simpl|]|];
    [left|right; eauto..].
  apply truthyString_Some in Hp as (p & Hp & Hp' & Hpne).
  apply truthyString_Some in Hu as (u & Hu & Hu' & Hune).
  apply truthyString_Some in Ha as (a & Ha & Ha' & Hane).
  exists p, u, a. rewrite Hp', Hu', Ha'.
  pose proof (orString_Some p "Unknown" Hpne) as Hp''.
  pose proof (orString_Some u "Unknown" Hune) as Hu''.
  pose proof (orString_Some a "Unknown" Hane) as Ha''.
  simpl in Hp'', Hu'', Ha''. by rewrite Hp'', Hu'', Ha''.
Qed.

Lemma keysOf_plain shloka :
  plainKeys shloka = true ->
  inheritedKey (keysOf shloka).1.1 = false
  /\ inheritedKey (keysOf shloka).1.2 = false
  /\ inheritedKey (keysOf shloka).2 = false.
Proof.
  intros Hplain.
  destruct (keysOf_cases shloka) as [(p & u & a & Hp & Hu & Ha & ->)|(x & y & ->)];
    simpl.
  - unfold plainKeys in Hplain. rewrite Hp, Hu, Ha in Hplain. simpl in Hplain.
    destruct (inheritedKey p), (inheritedKey u), (inheritedKey a); done.
  - repeat split; apply synthetic_key_plain; tauto.
Qed.

Lemma keysOf_unplaced shloka :
  unplaced shloka -> keysOf shloka = ("P01", "U00", "A000").
Proof.
  intros (_ & _ & Hc & Hp & Hu & Ha).
  unfold keysOf, parseSrirangaHierarchy. by rewrite Hc, Hp, Hu, Ha.
Qed.

Lemma groupFrom_plain shlokas hierarchy :
  forallb plainKeys shlokas = true ->
  exists hierarchy', groupFrom hierarchy shlokas = Normal hierarchy'.
Proof.
  revert hierarchy.
  induction shlokas as [|s shlokas IH]; simpl; intros h Hall; [eauto|].
  apply andb_prop in Hall as [Hs Hall].
  destruct (keysOf_plain s Hs) as (Hp & Hu & Ha).
  destruct (addShloka_plain h s Hp Hu Ha) as [h1 ->]. by apply IH.
Qed.

(** C1.  Whenever [groupByHierarchy] returns a hierarchy: at every level
    (parva, upaparva, adhyaya) [total = matched + unmatched]; the counts of a
    parva are the sums of the counts of its upaparvas, the counts of an
    upaparva are the sums of the counts of its adhyayas, and the counts of an
    adhyaya are those of the records it holds; the totals of all the leaf
    buckets add up to the number of input records. *)
Theorem groupByHierarchy_counts records hierarchy :
  groupByHierarchy records = Normal hierarchy ->
  (forall pk p, hierarchy !! pk = Some p ->
     balanced (pv_stats p)
     /\ pv_stats p = childrenStats u_stats (upaparvas p)
     /\ forall uk u, upaparvas p !! uk = Some u ->
          balanced (u_stats u)
          /\ u_stats u = childrenStats a_stats (adhyayas u)
          /\ forall ak a, adhyayas u !! ak = Some a ->
               balanced (a_stats a) /\ a_stats a = leafStats (shlokas a))
  /\ leafTotals hierarchy = length records.
Proof.
  intros Hrun. unfold groupByHierarchy in Hrun.
  pose proof (groupFrom_inv _ _ _ hierarchyInv_empty Hrun) as Hinv.
  split.
  - intros pk p Hp. destruct (Hinv pk p Hp) as [Hpstats Hus].
    assert (Hleaf : forall uk u, upaparvas p !! uk = Some u ->
              forall ak a, adhyayas u !! ak = Some a ->
              balanced (a_stats a) /\ a_stats a = leafStats (shlokas a)).
    { intros uk u Hu ak a Ha. destruct (Hus uk u Hu) as [_ Has].
      pose proof (Has ak a Ha) as Hinva. unfold adhyayaInv in Hinva.
      split; [|done]. rewrite Hinva. apply leafStats_balanced. }
    assert (Hmid : forall uk u, upaparvas p !! uk = Some u ->
              balanced (u_stats u)
              /\ u_stats u = childrenStats a_stats (adhyayas u)).
    { intros uk u Hu. destruct (Hus uk u Hu) as [Hustats _].
      split; [|done]. rewrite Hustats. apply childrenStats_balanced.
      intros ak a Ha. by apply (Hleaf uk u Hu ak a). }
    split; [|split; [done|]].
    + rewrite Hpstats. apply childrenStats_balanced.
      intros uk u Hu. by apply (Hmid uk u).
    + intros uk u Hu. destruct (Hmid uk u Hu) as [Hbal Hsum].
      split; [done|split; [done|]]. by apply (Hleaf uk u).
  - rewrite (leafTotals_length _ Hinv), (groupFrom_leafShlokas _ _ _ Hrun).
    unfold leafShlokas. by rewrite collect_empty.
Qed.


Lemma groupByHierarchy_counts_witness :
  exists hierarchy,
    groupByHierarchy sampleRecords = Normal hierarchy
    /\ leafTotals hierarchy = 2.
Proof.
  destruct (groupByHierarchy sampleRecords) as [hierarchy|] eqn:Hrun.
  - exists hierarchy. split; [reflexivity|].
    exact (proj2 (groupByHierarchy_counts sampleRecords hierarchy Hrun)).
  - vm_compute in Hrun. discriminate Hrun.
Defined.

Lemma groupByHierarchy_bare : groupByHierarchy [emptyShloka] = Normal bareHierarchy.
Proof. vm_compute. reflexivity. Qed.

(** A record whose parva identifier is a property name of [Object.prototype]
    makes the whole build throw. *)
Lemma groupByHierarchy_inherited_key_throws :
  plainKeys constructorShloka = false
  /\ groupByHierarchy [emptyShloka; constructorShloka] = Throw.
Proof. split; vm_compute; reflexivity. Qed.

(** C6, as stated, fails on the record with no field: the build returns, but
    the record is filed under [P01], [U00], [A000], with the display names
    ["Adi Parva"], ["Upaparva 0"], ["Adhyaya 0"], and not in a bucket called
    ["Unknown"]. *)
Lemma unknown_bucket_counterexample :
  unplaced emptyShloka /\ ~ totalWithUnknownBucket [emptyShloka].
Proof.
  split; [by repeat split|].
  intros (h & Hrun & _ & Hunknown).
  rewrite groupByHierarchy_bare in Hrun. injection Hrun as <-.
  destruct (Hunknown emptyShloka) as (pk & p & uk & u & ak & a & Hp & Hu & Ha & _ & Hin).
  { by left. }
  { by repeat split. }
  unfold bareHierarchy in Hp.
  apply lookup_singleton_Some in Hp as [<- <-]. simpl in Hu.
  apply lookup_singleton_Some in Hu as [<- <-]. simpl in Ha.
  apply lookup_singleton_Some in Ha as [<- <-]. simpl in Hin.
  repeat (apply elem_of_cons in Hin as [Heq|Hin]; [discriminate Heq|]).
  by apply elem_of_nil in Hin.
Qed.

(** C6, amended.  For every record sequence in which no hierarchy identifier
    is a property name of [Object.prototype], the build returns a hierarchy;
    the leaf buckets together hold exactly the input records, each occurrence
    once; every record is in the leaf bucket of its keys; and a record without
    identifier, hierarchy placement and chapter is in the leaf bucket
    [P01] / [U00] / [A000]. *)
Theorem groupByHierarchy_total records :
  forallb plainKeys records = true ->
  exists hierarchy,
    groupByHierarchy records = Normal hierarchy
    /\ leafShlokas hierarchy ≡ₚ records
    /\ (forall r, r ∈ records -> filedAt hierarchy r (keysOf r))
    /\ (forall r, r ∈ records -> unplaced r ->
          filedAt hierarchy r ("P01", "U00", "A000")).
Proof.
  intros Hplain.
  destruct (groupFrom_plain records ∅ Hplain) as [hierarchy Hrun].
  exists hierarchy. split; [exact Hrun|]. split; [|split].
  - rewrite (groupFrom_leafShlokas _ _ _ Hrun). unfold leafShlokas.
    by rewrite collect_empty.
  - intros r Hr. by apply (groupFrom_files records ∅).
  - intros r Hr Hun. rewrite <- (keysOf_unplaced r Hun).
    by apply (groupFrom_files records ∅).
Qed.

Lemma groupByHierarchy_total_witness :
  forallb plainKeys sampleRecords = true
  /\ exists hierarchy,
       groupByHierarchy sampleRecords = Normal hierarchy
       /\ leafShlokas hierarchy ≡ₚ sampleRecords
       /\ filedAt hierarchy emptyShloka ("P01", "U00", "A000").
Proof.
  split; [reflexivity|].
  destruct (groupByHierarchy_total sampleRecords eq_refl)
    as (hierarchy & Hrun & Hperm & _ & Hbare).
  exists hierarchy. split; [exact Hrun|]. split; [exact Hperm|].
  apply Hbare; [right; left|]; by repeat split.
Defined.

End HierarchyFacts.

Module StatsFacts.
Import Dashboard.

(** A similarity is on one side of the threshold, and one only. *)
Lemma threshold_split (q c : Q) :
  Qle_bool c q = negb (Qle_bool q c && negb (Qeq_bool q c)).
Proof.
  destruct (Qle_bool c q) eqn:Hge.
  - apply Qle_bool_iff in Hge. symmetry. apply negb_true_iff, andb_false_iff.
    destruct (Qle_bool q c) eqn:Hle; [right|by left].
    apply Qle_bool_iff in Hle. apply negb_false_iff, Qeq_bool_iff.
    by apply Qle_antisym.
  - symmetry. apply negb_false_iff, andb_true_iff.
    assert (Hlt : (q < c)%Q).
    { apply Qnot_le_lt. intros Hle. apply Qle_bool_iff in Hle. congruence. }
    split.
    + apply Qle_bool_iff. by apply Qlt_le_weak.
    + apply negb_true_iff. destruct (Qeq_bool q c) eqn:Heq; [|done].
      apply Qeq_bool_iff in Heq. by apply Qlt_not_eq in Hlt.
Qed.

Lemma countIf_split (p a b : Shloka -> bool) data :
  Forall (fun s => p s = true -> a s = negb (b s)) data ->
  countIf (fun s => p s && a s) data + countIf (fun s => p s && b s) data
  = countIf p data.
Proof.
  unfold countIf. induction 1 as [|s data Hs _ IH]; simpl; [done|].
  destruct (p s); simpl; [|exact IH].
  rewrite (Hs eq_refl). destruct (b s); simpl; lia.
Qed.

Lemma tenths_nearest (x : Q) : nearestTenth x (tenths x).
Proof.
  unfold nearestTenth, tenths.
  pose proof (Qfloor_le (x * 10 + (1 # 2))) as Hlo.
  pose proof (Qlt_floor (x * 10 + (1 # 2))) as Hhi.
  rewrite inject_Z_plus in Hhi.
  set (n := inject_Z (Qfloor (x * 10 + (1 # 2)))) in *.
  split.
  - apply (Qplus_le_l _ _ (1 # 2)). ring_simplify. ring_simplify in Hlo.
    exact Hlo.
  - apply (Qplus_lt_l _ _ (1 # 2)).
    assert (Heq : (n + (1 # 2) + (1 # 2) == n + inject_Z 1)%Q) by ring.
    rewrite Heq. exact Hhi.
Qed.




End StatsFacts.

Module DiffFacts.
Import Dashboard.

Section Annotation.
Context `{LowerCase}.
Implicit Types (word w n : jsstring) (words sourceWords targetWords : list jsstring).

(** The two tests of the callbacks, read as the spec words them. *)
Lemma isDanda_spec word : isDanda word = true <-> standaloneDanda word.
Proof.
  unfold isDanda, standaloneDanda.
  rewrite orb_true_iff, !bool_decide_eq_true. done.
Qed.

Lemma isNumeral_spec word : isNumeral word = true <-> pureNumeral word.
Proof.
  unfold isNumeral, pureNumeral. destruct word as [|c word].
  - split; [done|]. by intros [? _].
  - rewrite forallb_forall, Forall_forall. split.
    + intros Hall. split; [done|]. intros x Hx.
      apply orb_true_iff, Hall. by apply list_elem_of_In.
    + intros [_ Hall] x Hx. apply orb_true_iff, Hall. by apply list_elem_of_In.
Qed.

Lemma skipped_spec word :
  skipped word = true <-> standaloneDanda word \/ pureNumeral word.
Proof.
  unfold skipped. by rewrite orb_true_iff, isDanda_spec, isNumeral_spec.
Qed.

Lemma annotate_skipped b word : skipped word = true -> annotate b word = Plain word.
Proof. intros Hs. unfold annotate. by rewrite Hs. Qed.

Lemma annotate_content b word :
  skipped word = false ->
  annotate b word = if b then SpanMatch word else SpanDifferent word.
Proof. intros Hs. unfold annotate. by rewrite Hs. Qed.

(** What is in a [Set] of normalized words. *)
Lemma elem_of_wordSet n words :
  n ∈ wordSet words <-> n <> [] /\ exists w, w ∈ words /\ normalizeWord w = n.
Proof.
  unfold wordSet. rewrite elem_of_list_to_set, list_elem_of_In, filter_In.
  rewrite <- list_elem_of_In, list_elem_of_fmap, Nat.ltb_lt.
  split.
  - intros [(w & -> & Hw) Hlen]. split; [|eauto].
    intros Hnil. rewrite Hnil in Hlen. simpl in Hlen. lia.
  - intros [Hne (w & Hw & <-)]. split; [eauto|].
    destruct (normalizeWord w); [done|simpl; lia].
Qed.

Lemma empty_not_in_wordSet words : [] ∉ wordSet words.
Proof. rewrite elem_of_wordSet. by intros [? _]. Qed.

(** The pieces, position by position. *)
Lemma alignedSourcePieces_lookup sourceWords al i word :
  sourceWords !! i = Some word ->
  alignedSourcePieces sourceWords al !! i
  = Some (annotate (bool_decide (Z.of_nat i ∈ sourceMatchedPositions al)) word).
Proof.
  intros Hi. unfold alignedSourcePieces. by rewrite list_lookup_imap, Hi.
Qed.

Lemma alignedTargetPieces_lookup sourceWords targetWords al i word :
  targetWords !! i = Some word ->
  alignedTargetPieces sourceWords targetWords al !! i
  = Some
      (annotate
         (bool_decide
            (normalizeWord word
             ∈ wordSet (match source_words al with
                        | Some l => l
                        | None => sourceWords
                        end)))
         word).
Proof.
  intros Hi. unfold alignedTargetPieces. by rewrite list_lookup_fmap, Hi.
Qed.

Lemma lcsSourcePieces_lookup sourceWords targetWords i word :
  sourceWords !! i = Some word ->
  lcsSourcePieces sourceWords targetWords !! i
  = Some (annotate (bool_decide (normalizeWord word ∈ wordSet targetWords)) word).
Proof.
  intros Hi. unfold lcsSourcePieces. by rewrite list_lookup_fmap, Hi.
Qed.

Lemma lcsTargetPieces_lookup sourceWords targetWords i word :
  targetWords !! i = Some word ->
  lcsTargetPieces sourceWords targetWords !! i
  = Some (annotate (bool_decide (normalizeWord word ∈ wordSet sourceWords)) word).
Proof.
  intros Hi. unfold lcsTargetPieces. by rewrite list_lookup_fmap, Hi.
Qed.

(** C2.  In both strategies and on both sides, a token that is a standalone
    danda or made of digits only (Devanagari or ASCII) is passed through as
    it is: its piece is the plain word, whose HTML is the word, and it is
    inside neither a [diff-match] nor a [diff-different] span. *)
Theorem dandas_and_numerals_plain sourceWords targetWords al i word :
  standaloneDanda word \/ pureNumeral word ->
  html (Plain word) = word
  /\ (sourceWords !! i = Some word ->
      alignedSourcePieces sourceWords al !! i = Some (Plain word)
      /\ lcsSourcePieces sourceWords targetWords !! i = Some (Plain word))
  /\ (targetWords !! i = Some word ->
      alignedTargetPieces sourceWords targetWords al !! i = Some (Plain word)
      /\ lcsTargetPieces sourceWords targetWords !! i = Some (Plain word)).
Proof.
  intros Hskip%skipped_spec. split; [done|]. split; intros Hi.
  - rewrite (alignedSourcePieces_lookup _ _ _ _ Hi).
    rewrite (lcsSourcePieces_lookup _ _ _ _ Hi).
    by rewrite !annotate_skipped.
  - rewrite (alignedTargetPieces_lookup _ _ _ _ _ Hi).
    rewrite (lcsTargetPieces_lookup _ _ _ _ Hi).
    by rewrite !annotate_skipped.
Qed.


(** C4.  With the fallback strategy, when a normalized form is both in the
    set of normalized source words and in the set of normalized target
    words, every token with that normalized form, dandas and numerals apart,
    is in a [diff-match] span, on the source side and on the target side. *)
Theorem lcs_symmetry sourceWords targetWords n :
  n ∈ wordSet sourceWords ->
  n ∈ wordSet targetWords ->
  (forall i word,
      sourceWords !! i = Some word -> normalizeWord word = n ->
      skipped word = false ->
      lcsSourcePieces sourceWords targetWords !! i = Some (SpanMatch word))
  /\ (forall i word,
        targetWords !! i = Some word -> normalizeWord word = n ->
        skipped word = false ->
        lcsTargetPieces sourceWords targetWords !! i = Some (SpanMatch word)).
Proof.
  intros Hsrc Htgt. split; intros i word Hi <- Hskip.
  - rewrite (lcsSourcePieces_lookup _ _ _ _ Hi), (annotate_content _ _ Hskip).
    by rewrite bool_decide_eq_true_2.
  - rewrite (lcsTargetPieces_lookup _ _ _ _ Hi), (annotate_content _ _ Hskip).
    by rewrite bool_decide_eq_true_2.
Qed.

(** C10, amended.  A token whose normalized form is empty and that is
    neither a danda nor a numeral is in a [diff-different] span on both sides
    of the fallback strategy and on the target side of the alignment-based
    strategy: the empty string is in no set of normalized words. *)
Theorem empty_normal_form_different sourceWords targetWords al i word :
  normalizeWord word = [] ->
  skipped word = false ->
  (sourceWords !! i = Some word ->
   lcsSourcePieces sourceWords targetWords !! i = Some (SpanDifferent word))
  /\ (targetWords !! i = Some word ->
      lcsTargetPieces sourceWords targetWords !! i = Some (SpanDifferent word)
      /\ alignedTargetPieces sourceWords targetWords al !! i
         = Some (SpanDifferent word)).
Proof.
  intros Hnil Hskip. split; intros Hi.
  - rewrite (lcsSourcePieces_lookup _ _ _ _ Hi), (annotate_content _ _ Hskip).
    rewrite Hnil, bool_decide_eq_false_2; [done|apply empty_not_in_wordSet].
  - rewrite (lcsTargetPieces_lookup _ _ _ _ Hi).
    rewrite (alignedTargetPieces_lookup _ _ _ _ _ Hi).
    rewrite !(annotate_content _ _ Hskip), Hnil.
    rewrite !bool_decide_eq_false_2; [done|apply empty_not_in_wordSet..].
Qed.

(** C8.  [computeDiff] uses the alignment-based strategy when the record has
    an alignment with [target_words] and [matched_positions], and the
    fallback strategy in every other case. *)
Theorem computeDiff_strategy shloka :
  let sourceWords := tokenize (orText (source_text shloka)) in
  let targetWords := tokenize (orText (matched_target_text shloka)) in
  (forall md al,
      metadata shloka = Some md -> alignment md = Some al ->
      is_Some (target_words al) -> is_Some (matched_positions al) ->
      computeDiff shloka = diffWithAlignment sourceWords targetWords al)
  /\ ((forall md al,
          metadata shloka = Some md -> alignment md = Some al ->
          target_words al = None \/ matched_positions al = None) ->
      computeDiff shloka = diffWithLCS sourceWords targetWords).
Proof.
  simpl. unfold computeDiff, usableAlignment. split.
  - intros md al -> -> [tw ->] [mp ->]. done.
  - intros Hnone. destruct (metadata shloka) as [md|]; [|done].
    destruct (alignment md) as [al|] eqn:Hal; [|done].
    destruct (Hnone md al eq_refl Hal) as [-> | ->]; [done|].
    by destruct (target_words al).
Qed.
End Annotation.

#[local] Existing Instance asciiLower.

Lemma dandas_and_numerals_plain_witness :
  (standaloneDanda [danda] \/ pureNumeral [danda])
  /\ lcsSourcePieces (tokenize sourceVerse) (tokenize targetVerse) !! 2
     = Some (Plain [danda]).
Proof.
  assert (Hd : standaloneDanda [danda] \/ pureNumeral [danda])
    by (left; left; reflexivity).
  split; [exact Hd|].
  assert (Hi : tokenize sourceVerse !! 2 = Some [danda]) by (vm_compute; reflexivity).
  exact (proj2 (proj1 (proj2 (dandas_and_numerals_plain (tokenize sourceVerse)
           (tokenize targetVerse) firstTwoMatched 2 [danda] Hd)) Hi)).
Defined.


Lemma lcs_symmetry_witness :
  units "धर्मक्षेत्रे" ∈ wordSet (tokenize sourceVerse)
  /\ units "धर्मक्षेत्रे" ∈ wordSet (tokenize targetVerse)
  /\ lcsSourcePieces (tokenize sourceVerse) (tokenize targetVerse) !! 0
     = Some (SpanMatch (units "धर्मक्षेत्रे"))
  /\ lcsTargetPieces (tokenize sourceVerse) (tokenize targetVerse) !! 0
     = Some (SpanMatch (units "धर्मक्षेत्रे")).
Proof.
  assert (Hs : units "धर्मक्षेत्रे" ∈ wordSet (tokenize sourceVerse)).
  { apply (bool_decide_unpack _). vm_compute. exact I. }
  assert (Ht : units "धर्मक्षेत्रे" ∈ wordSet (tokenize targetVerse)).
  { apply (bool_decide_unpack _). vm_compute. exact I. }
  split; [exact Hs|]. split; [exact Ht|].
  destruct (lcs_symmetry _ _ _ Hs Ht) as [Hsrc Htgt].
  split.
  - apply (Hsrc 0 (units "धर्मक्षेत्रे")); vm_compute; reflexivity.
  - apply (Htgt 0 (units "धर्मक्षेत्रे")); vm_compute; reflexivity.
Defined.

(** C10 fails, as stated, on the source side of the alignment-based strategy:
    a visarga alone has an empty normalized form and is no danda and no
    numeral, and at a matched position it is in a [diff-match] span. *)
Lemma empty_normal_form_counterexample :
  normalizeWord [visarga] = []
  /\ skipped [visarga] = false
  /\ alignedSourcePieces [[visarga]] firstMatched = [SpanMatch [visarga]].
Proof. repeat split; vm_compute; reflexivity. Qed.

Lemma empty_normal_form_different_witness :
  normalizeWord [visarga] = []
  /\ skipped [visarga] = false
  /\ lcsSourcePieces [[visarga]] [[visarga]] !! 0 = Some (SpanDifferent [visarga])
  /\ lcsTargetPieces [[visarga]] [[visarga]] !! 0 = Some (SpanDifferent [visarga]).
Proof.
  assert (Hn : normalizeWord [visarga] = []) by (vm_compute; reflexivity).
  assert (Hs : skipped [visarga] = false) by (vm_compute; reflexivity).
  split; [exact Hn|]. split; [exact Hs|].
  destruct (empty_normal_form_different [[visarga]] [[visarga]] firstMatched 0
              [visarga] Hn Hs) as [Hsrc Htgt].
  split; [exact (Hsrc eq_refl)|exact (proj1 (Htgt eq_refl))].
Defined.

Lemma computeDiff_strategy_witness :
  computeDiff alignedShloka
  = diffWithAlignment (tokenize (orText (source_text alignedShloka)))
      (tokenize (orText (matched_target_text alignedShloka))) firstTwoMatched.
Proof.
  exact (proj1 (computeDiff_strategy alignedShloka)
           {| alignment := Some firstTwoMatched |} firstTwoMatched eq_refl eq_refl
           (ex_intro _ [] eq_refl) (ex_intro _ [0%Z; 1%Z] eq_refl)).
Defined.

End DiffFacts.

Module NormalizeFacts.
Import Dashboard.

(** *** [trim] *)

Lemma trimStart_head s :
  trimStart s = [] \/ exists c r, trimStart s = c :: r /\ isWhiteSpace c = false.
Proof.
  induction s as [|c s IH]; simpl; [by left|].
  destruct (isWhiteSpace c) eqn:Hc; [exact IH|]. right. eauto.
Qed.

Lemma trimStart_id c s : isWhiteSpace c = false -> trimStart (c :: s) = c :: s.
Proof. intros Hc. simpl. by rewrite Hc. Qed.

Lemma trimEnd_idem s : trimEnd (trimEnd s) = trimEnd s.
Proof.
  induction s as [|c s IH]; simpl; [done|].
  destruct (trimEnd s) as [|d r] eqn:Hr.
  - destruct (isWhiteSpace c) eqn:Hc; simpl; [done|]. by rewrite Hc.
  - change (trimEnd (c :: d :: r)) with
      (match trimEnd (d :: r) with
       | [] => if isWhiteSpace c then [] else [c]
       | x :: r' => c :: x :: r'
       end).
    by rewrite IH.
Qed.

Lemma trimEnd_head c s :
  isWhiteSpace c = false -> exists r, trimEnd (c :: s) = c :: r.
Proof.
  intros Hc. simpl. destruct (trimEnd s); rewrite ?Hc; eauto.
Qed.

Lemma trim_idem s : trim (trim s) = trim s.
Proof.
  unfold trim. destruct (trimStart_head s) as [->|(c & r & -> & Hc)]; [done|].
  destruct (trimEnd_head c r Hc) as [r' Hr']. rewrite Hr'.
  rewrite (trimStart_id c r' Hc), <- Hr'. apply trimEnd_idem.
Qed.

Lemma trimStart_Forall (P : N -> Prop) s : Forall P s -> Forall P (trimStart s).
Proof.
  induction 1 as [|c s Hc Hs IH]; simpl; [done|].
  destruct (isWhiteSpace c); [done|]. by constructor.
Qed.

Lemma trimEnd_Forall (P : N -> Prop) s : Forall P s -> Forall P (trimEnd s).
Proof.
  induction 1 as [|c s Hc Hs IH]; simpl; [done|].
  destruct (trimEnd s) as [|d r].
  - destruct (isWhiteSpace c); by repeat constructor.
  - by constructor.
Qed.

Lemma trim_Forall (P : N -> Prop) s : Forall P s -> Forall P (trim s).
Proof. intros Hs. by apply trimEnd_Forall, trimStart_Forall. Qed.

(** *** Removing and replacing code units *)

Lemma removeAll_Forall cls s : Forall (fun c => cls c = false) (removeAll cls s).
Proof.
  apply Forall_forall. intros c Hc. apply list_elem_of_In, filter_In in Hc.
  by destruct Hc as [_ ?%negb_true_iff].
Qed.

Lemma removeAll_id cls s : Forall (fun c => cls c = false) s -> removeAll cls s = s.
Proof.
  induction 1 as [|c s Hc _ IH]; simpl; [done|]. by rewrite Hc, IH.
Qed.

Lemma replaceAll_id a r s : Forall (fun c => c <> a) s -> replaceAll a r s = s.
Proof.
  induction 1 as [|c s Hc _ IH]; [done|].
  unfold replaceAll in *. simpl. rewrite IH.
  by destruct (N.eqb_spec c a).
Qed.

Lemma replaceAll_Forall (P : N -> Prop) a r s :
  Forall P r -> Forall (fun c => c <> a -> P c) s -> Forall P (replaceAll a r s).
Proof.
  intros Hr. induction 1 as [|c s Hc _ IH]; [done|].
  unfold replaceAll in *. simpl. apply Forall_app. split; [|exact IH].
  destruct (N.eqb_spec c a); [done|]. repeat constructor. by apply Hc.
Qed.

Lemma stripMarks_kept word : Forall kept (stripMarks word).
Proof.
  unfold stripMarks. apply trim_Forall.
  apply replaceAll_Forall; [done|].
  eapply Forall_impl;
    [apply (replaceAll_Forall
              (fun c => stripped c = false /\ c <> anusvara) anusvara)|].
  - by repeat constructor.
  - eapply Forall_impl; [apply removeAll_Forall|]. intros c Hc Hne. by split.
  - intros c [Hs Ha] Hv. by repeat split.
Qed.

Lemma stripMarks_fixed s : Forall kept s -> trim s = s -> stripMarks s = s.
Proof.
  intros Hkept Htrim. unfold stripMarks.
  rewrite (removeAll_id stripped s).
  - rewrite (replaceAll_id anusvara _ s).
    + rewrite (replaceAll_id visarga _ s); [done|].
      eapply Forall_impl; [exact Hkept|]. by intros c (_ & _ & ?).
    + eapply Forall_impl; [exact Hkept|]. by intros c (_ & ? & _).
  - eapply Forall_impl; [exact Hkept|]. by intros c (? & _ & _).
Qed.

(** Removing the marks twice is removing them once. *)
Lemma stripMarks_idem word : stripMarks (stripMarks word) = stripMarks word.
Proof.
  apply stripMarks_fixed; [apply stripMarks_kept|].
  unfold stripMarks. apply trim_idem.
Qed.


(** *** Case mappings that work code unit by code unit *)

Section Unitwise.
Variable f : N -> N.
Hypothesis f_idem : forall c, f (f c) = f c.
Hypothesis f_marks : forall c, inspected c = true \/ inspected (f c) = true -> f c = c.

Lemma inspected_class (cls : N -> bool) c :
  (forall d, cls d = true -> inspected d = true) -> cls (f c) = cls c.
Proof.
  intros Hcls. destruct (cls c) eqn:Hc.
  - rewrite f_marks; [done|]. left. by apply Hcls.
  - destruct (cls (f c)) eqn:Hfc; [|done].
    rewrite f_marks in Hfc; [congruence|]. right. by apply Hcls.
Qed.

Lemma inspected_unit a c : inspected a = true -> (f c =? a)%N = (c =? a)%N.
Proof.
  intros Ha.
  apply (inspected_class (fun d => (d =? a)%N) c).
  by intros d ->%N.eqb_eq.
Qed.

Lemma unitwise_removeAll s :
  f <$> removeAll stripped s = removeAll stripped (f <$> s).
Proof.
  induction s as [|c s IH]; [done|]. unfold removeAll in *.
  rewrite fmap_cons. simpl List.filter.
  rewrite (inspected_class stripped c).
  - destruct (stripped c); simpl negb; cbv iota; rewrite ?fmap_cons; by rewrite IH.
  - intros d Hd. unfold inspected. by rewrite Hd.
Qed.

Lemma unitwise_replaceAll a r s :
  inspected a = true -> f <$> r = r ->
  f <$> replaceAll a r s = replaceAll a r (f <$> s).
Proof.
  intros Ha Hr. induction s as [|c s IH]; [done|].
  unfold replaceAll in *. simpl. rewrite fmap_app, IH, (inspected_unit a c Ha).
  by destruct (c =? a)%N; [rewrite Hr|].
Qed.

Lemma unitwise_space c : isWhiteSpace (f c) = isWhiteSpace c.
Proof.
  apply (inspected_class isWhiteSpace). intros d Hd. unfold inspected.
  rewrite Hd. by destruct (stripped d).
Qed.

Lemma unitwise_trimStart s : f <$> trimStart s = trimStart (f <$> s).
Proof.
  induction s as [|c s IH]; [done|]. rewrite fmap_cons. cbn [trimStart].
  rewrite unitwise_space. by destruct (isWhiteSpace c).
Qed.

Lemma unitwise_trimEnd s : f <$> trimEnd s = trimEnd (f <$> s).
Proof.
  induction s as [|c s IH]; [done|]. rewrite fmap_cons. cbn [trimEnd].
  rewrite <- IH, unitwise_space.
  destruct (trimEnd s); [by destruct (isWhiteSpace c)|done].
Qed.

Lemma unitwise_stripMarks s : f <$> stripMarks s = stripMarks (f <$> s).
Proof.
  unfold stripMarks, trim.
  rewrite unitwise_trimEnd, unitwise_trimStart.
  rewrite (unitwise_replaceAll visarga []) by done.
  rewrite (unitwise_replaceAll anusvara [ma; virama]).
  - by rewrite unitwise_removeAll.
  - done.
  - simpl. by rewrite !f_marks by (left; done).
Qed.

Lemma unitwise_laws : @LowerCaseLaws (fun s => f <$> s).
Proof.
  split.
  - done.
  - intros s. unfold toLowerCase. rewrite <- list_fmap_compose.
    apply list_fmap_ext. intros _ c _. apply f_idem.
  - intros s Hs. unfold toLowerCase. by rewrite <- unitwise_stripMarks, Hs.
Qed.

Lemma unitwise_regular s : @caseRegular (fun s => f <$> s) s.
Proof. apply unitwise_stripMarks. Qed.
End Unitwise.

Lemma inspected_letters c : (65 <= c <= 122)%N -> inspected c = false.
Proof.
  intros Hc.
  unfold inspected, stripped, isWhiteSpace, isAsciiDigit, isDevanagariDigit,
    anusvara, visarga, ma, virama, danda, doubleDanda.
  repeat match goal with
         | |- (_ || _)%bool = false => apply orb_false_intro
         end;
    try (apply N.eqb_neq; lia); apply andb_false_iff; rewrite !N.leb_gt; lia.
Qed.

Lemma asciiLowerUnit_cases c :
  ((65 <= c <= 90)%N /\ asciiLowerUnit c = (c + 32)%N)
  \/ (~ (65 <= c <= 90)%N /\ asciiLowerUnit c = c).
Proof.
  unfold asciiLowerUnit.
  destruct (N.leb_spec 65 c), (N.leb_spec c 90); simpl; [left|right..]; split;
    (done || lia).
Qed.

Lemma asciiLowerUnit_idem c : asciiLowerUnit (asciiLowerUnit c) = asciiLowerUnit c.
Proof.
  destruct (asciiLowerUnit_cases c) as [[Hc ->]|[Hc ->]].
  - destruct (asciiLowerUnit_cases (c + 32)) as [[Hc' _]|[_ ->]]; [lia|done].
  - by destruct (asciiLowerUnit_cases c) as [[Hc' _]|[_ ->]].
Qed.

Lemma asciiLowerUnit_marks c :
  inspected c = true \/ inspected (asciiLowerUnit c) = true -> asciiLowerUnit c = c.
Proof.
  destruct (asciiLowerUnit_cases c) as [[Hc ->]|[Hc ->]]; [|done].
  rewrite !inspected_letters by lia. by intros [?|?].
Qed.

Lemma asciiLower_laws : @LowerCaseLaws asciiLower.
Proof. apply unitwise_laws; [apply asciiLowerUnit_idem|apply asciiLowerUnit_marks]. Qed.

Lemma asciiLower_regular s : @caseRegular asciiLower s.
Proof. apply unitwise_regular. apply asciiLowerUnit_marks. Qed.


End NormalizeFacts.

Module TokenizeFacts.
Import Dashboard NormalizeFacts.

Local Abbreviation nonEmpty := (fun t : jsstring => (0 <? length t)%nat).

(** *** Fields *)

Lemma splitBy_cons sep s : exists h t, splitBy sep s = h :: t.
Proof.
  destruct s as [|c s]; simpl; [eauto|].
  destruct (sep c); [eauto|]. destruct (splitBy sep s); eauto.
Qed.

Lemma splitBy_sep sep c s : sep c = true -> splitBy sep (c :: s) = [] :: splitBy sep s.
Proof. intros Hc. simpl. by rewrite Hc. Qed.

Lemma splitBy_unit sep c s h t :
  sep c = false -> splitBy sep s = h :: t -> splitBy sep (c :: s) = (c :: h) :: t.
Proof. intros Hc Hs. simpl. by rewrite Hc, Hs. Qed.

Lemma splitBy_ext (p q : N -> bool) s :
  Forall (fun c => p c = q c) s -> splitBy p s = splitBy q s.
Proof.
  induction 1 as [|c s Hc _ IH]; simpl; [done|]. by rewrite Hc, IH.
Qed.

Lemma splitBy_fields sep s :
  Forall (Forall (fun c => sep c = false)) (splitBy sep s).
Proof.
  induction s as [|c s IH]; simpl; [by repeat constructor|].
  destruct (sep c) eqn:Hc; [by constructor|].
  destruct (splitBy sep s) as [|h t]; [by repeat constructor|].
  inversion IH; subst. constructor; [by constructor|done].
Qed.

(** The fields of [w ++ c :: r], for [w] without separator and a separator
    [c]. *)
Lemma splitBy_app sep w c r :
  Forall (fun c => sep c = false) w -> sep c = true ->
  splitBy sep (w ++ c :: r) = w :: splitBy sep r.
Proof.
  intros Hw Hc. induction Hw as [|d w Hd _ IH]; simpl.
  - by rewrite Hc.
  - by rewrite Hd, IH.
Qed.

Lemma splitBy_whole sep w :
  Forall (fun c => sep c = false) w -> splitBy sep w = [w].
Proof.
  induction 1 as [|d w Hd _ IH]; simpl; [done|]. by rewrite Hd, IH.
Qed.

Lemma sameWords_words l l' h t h' t' :
  l = h :: t -> l' = h' :: t' -> sameWords l l' ->
  List.filter nonEmpty l = List.filter nonEmpty l'.
Proof.
  intros -> -> [Hh Ht]. simpl in *. subst h'. by rewrite Ht.
Qed.

Lemma sameWords_splitBy_words sep s s' :
  sameWords (splitBy sep s) (splitBy sep s') ->
  List.filter nonEmpty (splitBy sep s) = List.filter nonEmpty (splitBy sep s').
Proof.
  destruct (splitBy_cons sep s) as (h & t & Hs).
  destruct (splitBy_cons sep s') as (h' & t' & Hs').
  by apply (sameWords_words _ _ h t h' t').
Qed.

Lemma sameWords_unit sep c s s' :
  sameWords (splitBy sep s) (splitBy sep s') ->
  sameWords (splitBy sep (c :: s)) (splitBy sep (c :: s')).
Proof.
  intros Hsame.
  destruct (splitBy_cons sep s) as (h & t & Hs).
  destruct (splitBy_cons sep s') as (h' & t' & Hs').
  destruct (sep c) eqn:Hc.
  - rewrite !splitBy_sep by done. split; [done|]. simpl.
    by apply sameWords_splitBy_words.
  - rewrite (splitBy_unit sep c s h t), (splitBy_unit sep c s' h' t') by done.
    rewrite Hs, Hs' in Hsame. destruct Hsame as [Hh Ht]. simpl in *.
    subst h'. by split.
Qed.

(** *** The white space steps of [tokenize] *)

Lemma isWhiteSpace_SPACE : isWhiteSpace SPACE = true.
Proof. reflexivity. Qed.

Lemma collapseFrom_words s :
  words (collapseFrom true s) = words s
  /\ sameWords (splitBy isWhiteSpace (collapseFrom false s)) (splitBy isWhiteSpace s).
Proof.
  unfold words. induction s as [|c s [IHt IHf]]; [by repeat split|].
  simpl collapseFrom. destruct (isWhiteSpace c) eqn:Hc.
  - split.
    + by rewrite (splitBy_sep _ c s Hc).
    + rewrite (splitBy_sep _ SPACE _ isWhiteSpace_SPACE), (splitBy_sep _ c s Hc).
      by split.
  - split.
    + apply sameWords_splitBy_words. by apply sameWords_unit.
    + by apply sameWords_unit.
Qed.

Lemma collapseWhiteSpace_words s : words (collapseWhiteSpace s) = words s.
Proof.
  apply sameWords_splitBy_words. apply collapseFrom_words.
Qed.

Lemma collapseFrom_spaces b s :
  Forall (fun c => isWhiteSpace c = true -> c = SPACE) (collapseFrom b s).
Proof.
  revert b. induction s as [|c s IH]; intros b; simpl; [done|].
  destruct (isWhiteSpace c) eqn:Hc.
  - destruct b; [apply IH|]. constructor; [done|apply IH].
  - constructor; [congruence|apply IH].
Qed.

Lemma trimStart_words s : words (trimStart s) = words s.
Proof.
  unfold words. induction s as [|c s IH]; [done|]. simpl trimStart.
  destruct (isWhiteSpace c) eqn:Hc; [|done]. by rewrite (splitBy_sep _ c s Hc).
Qed.

Lemma trimEnd_sameWords s :
  sameWords (splitBy isWhiteSpace (trimEnd s)) (splitBy isWhiteSpace s).
Proof.
  induction s as [|c s IH]; [done|]. simpl trimEnd.
  destruct (trimEnd s) as [|d r] eqn:Hr.
  - destruct (splitBy_cons isWhiteSpace s) as (h & t & Hs).
    rewrite Hs in IH. destruct IH as [Hh Ht]. simpl in Hh, Ht.
    destruct (isWhiteSpace c) eqn:Hc.
    + rewrite (splitBy_sep _ c s Hc), Hs. split; [done|]. simpl.
      rewrite <- Hh, <- Ht. done.
    + rewrite (splitBy_unit _ c s h t Hc Hs). simpl. rewrite Hc.
      split; simpl; [by rewrite <- Hh|done].
  - by apply sameWords_unit.
Qed.

Lemma trim_words s : words (trim s) = words s.
Proof.
  unfold trim. rewrite <- (trimStart_words s). unfold words.
  apply sameWords_splitBy_words, trimEnd_sameWords.
Qed.

(** The tokens are the runs without white space of the text in which the
    dandas have been put between spaces. *)
Lemma tokenize_words text : tokenize text = words (isolateDandas text).
Proof.
  unfold tokenize. fold (isolateDandas text).
  rewrite <- (collapseWhiteSpace_words (isolateDandas text)).
  rewrite <- (trim_words (collapseWhiteSpace _)).
  unfold words, split. f_equal. apply splitBy_ext.
  eapply Forall_impl; [apply trim_Forall, collapseFrom_spaces|].
  intros c Hc. simpl. destruct (isWhiteSpace c) eqn:Hws.
  - rewrite (Hc Hws). apply N.eqb_refl.
  - apply N.eqb_neq. intros ->. by rewrite isWhiteSpace_SPACE in Hws.
Qed.

(** *** Dandas *)

Lemma replaceAll_app a r s s' :
  replaceAll a r (s ++ s') = replaceAll a r s ++ replaceAll a r s'.
Proof. unfold replaceAll. apply flat_map_app. Qed.

Lemma isolateDandas_app s s' :
  isolateDandas (s ++ s') = isolateDandas s ++ isolateDandas s'.
Proof. unfold isolateDandas. by rewrite !replaceAll_app. Qed.

Lemma isolateDandas_cons c s : isolateDandas (c :: s) = isolateDandas [c] ++ isolateDandas s.
Proof. apply (isolateDandas_app [c] s). Qed.

Lemma isolateDandas_space s : isolateDandas (SPACE :: s) = SPACE :: isolateDandas s.
Proof. by rewrite isolateDandas_cons. Qed.

Lemma isolateDandas_unit c :
  (c = danda /\ isolateDandas [c] = [SPACE; danda; SPACE])
  \/ (c = doubleDanda /\ isolateDandas [c] = [SPACE; doubleDanda; SPACE])
  \/ (c <> danda /\ c <> doubleDanda /\ isolateDandas [c] = [c]).
Proof.
  unfold isolateDandas, replaceAll. simpl.
  destruct (N.eqb_spec c danda) as [->|Hd]; [by left|]. simpl.
  destruct (N.eqb_spec c doubleDanda) as [->|Hdd]; [by right; left|].
  by right; right.
Qed.

Lemma isolateDandas_free t : dandaFree t -> isolateDandas t = t.
Proof.
  induction 1 as [|c t [Hd Hdd] _ IH]; [done|].
  rewrite isolateDandas_cons, IH.
  by destruct (isolateDandas_unit c) as [[? _]|[[? _]|(_ & _ & ->)]].
Qed.

(** In the text with isolated dandas, a field with a danda is that danda
    alone, and the first field has no danda. *)
Lemma isolateDandas_fields text :
  dandaFree (hd [] (splitBy isWhiteSpace (isolateDandas text)))
  /\ Forall dandaField (splitBy isWhiteSpace (isolateDandas text)).
Proof.
  induction text as [|c text [IHh IHf]].
  - split; [constructor|]. constructor; [|constructor]. right. right. constructor.
  - rewrite isolateDandas_cons.
    destruct (splitBy_cons isWhiteSpace (isolateDandas text)) as (h & t & Hs).
    rewrite Hs in IHh, IHf. simpl in IHh.
    destruct (isolateDandas_unit c)
      as [[-> ->]|[[-> ->]|(Hd & Hdd & ->)]]; simpl app.
    + rewrite (splitBy_sep _ SPACE) by done.
      rewrite (splitBy_unit _ danda _ [] (h :: t)) by
        (done || by rewrite (splitBy_sep _ SPACE), Hs).
      split; [constructor|]. constructor; [right; right; constructor|].
      constructor; [by left|done].
    + rewrite (splitBy_sep _ SPACE) by done.
      rewrite (splitBy_unit _ doubleDanda _ [] (h :: t)) by
        (done || by rewrite (splitBy_sep _ SPACE), Hs).
      split; [constructor|]. constructor; [right; right; constructor|].
      constructor; [by right; left|done].
    + destruct (isWhiteSpace c) eqn:Hc.
      * rewrite (splitBy_sep _ c _ Hc), Hs. split; [constructor|].
        constructor; [right; right; constructor|done].
      * rewrite (splitBy_unit _ c _ h t Hc Hs). simpl.
        assert (Hfree : dandaFree (c :: h)) by (by constructor).
        split; [done|]. inversion IHf; subst.
        constructor; [by right; right|done].
Qed.

Lemma words_wellFormed text : Forall wellFormedToken (tokenize text).
Proof.
  rewrite tokenize_words. unfold words. apply Forall_forall. intros t Ht.
  apply list_elem_of_In, filter_In in Ht as [Ht Hlen].
  apply list_elem_of_In in Ht.
  pose proof (splitBy_fields isWhiteSpace (isolateDandas text)) as Hws.
  pose proof (proj2 (isolateDandas_fields text)) as Hd.
  rewrite Forall_forall in Hws, Hd. repeat split.
  - intros ->. simpl in Hlen. done.
  - by apply Hws.
  - by apply Hd.
Qed.

(** *** Joining and tokenizing again *)

Lemma words_token_rest t r :
  wellFormedToken t -> words (isolateDandas t ++ SPACE :: r) = t :: words r.
Proof.
  intros (Hne & Hws & [-> | [-> | Hfree]]); unfold words.
  - done.
  - done.
  - rewrite (isolateDandas_free t Hfree), (splitBy_app _ t SPACE r Hws) by done.
    simpl. destruct t; done.
Qed.

Lemma words_token t : wellFormedToken t -> words (isolateDandas t) = [t].
Proof.
  intros (Hne & Hws & [-> | [-> | Hfree]]); unfold words.
  - done.
  - done.
  - rewrite (isolateDandas_free t Hfree), (splitBy_whole _ t Hws).
    simpl. destruct t; done.
Qed.

Lemma tokenize_join tokens :
  Forall wellFormedToken tokens -> tokenize (join [SPACE] tokens) = tokens.
Proof.
  rewrite tokenize_words.
  induction 1 as [|t tokens Ht Hts IH]; [done|].
  destruct tokens as [|t' tokens].
  - simpl. by apply words_token.
  - change (join [SPACE] (t :: t' :: tokens))
      with (t ++ SPACE :: join [SPACE] (t' :: tokens)).
    rewrite isolateDandas_app, isolateDandas_space.
    by rewrite (words_token_rest t _ Ht), IH.
Qed.

(** C9.  Joining the tokens of a text with single spaces and tokenizing the
    result gives the same tokens; and [tokenize] is a function of the text
    alone: equal texts have equal tokens. *)
Theorem tokenize_round_trip text :
  tokenize (join [SPACE] (tokenize text)) = tokenize text
  /\ (forall text', text' = text -> tokenize text' = tokenize text).
Proof.
  split; [apply tokenize_join, words_wellFormed|]. by intros text' ->.
Qed.

Lemma tokenize_round_trip_witness :
  tokenize (join [SPACE] (tokenize sourceVerse)) = tokenize sourceVerse.
Proof. exact (proj1 (tokenize_round_trip sourceVerse)). Defined.

End TokenizeFacts.

Module TokenizeMore.
Import Dashboard NormalizeFacts TokenizeFacts.

Local Abbreviation nonEmpty := (fun t : jsstring => (0 <? length t)%nat).
Local Abbreviation nonSpace := (fun c : N => negb (isWhiteSpace c)).

Lemma concat_nonEmpty (l : list jsstring) : concat (List.filter nonEmpty l) = concat l.
Proof.
  induction l as [|t l IH]; [done|]. simpl. destruct t; simpl; by rewrite IH.
Qed.

Lemma concat_splitBy s : concat (splitBy isWhiteSpace s) = List.filter nonSpace s.
Proof.
  induction s as [|c s IH]; [done|].
  destruct (splitBy_cons isWhiteSpace s) as (h & t & Hs).
  destruct (isWhiteSpace c) eqn:Hc.
  - rewrite (splitBy_sep _ c s Hc). simpl. by rewrite Hc.
  - rewrite (splitBy_unit _ c s h t Hc Hs). simpl. rewrite Hc. simpl.
    rewrite <- IH, Hs. done.
Qed.

Lemma nonSpace_isolateDandas s :
  List.filter nonSpace (isolateDandas s) = List.filter nonSpace s.
Proof.
  induction s as [|c s IH]; [done|].
  rewrite isolateDandas_cons, List.filter_app, IH.
  destruct (isolateDandas_unit c) as [[-> ->]|[[-> ->]|(_ & _ & ->)]].
  - reflexivity.
  - reflexivity.
  - simpl. by destruct (isWhiteSpace c).
Qed.

Lemma concat_words s : concat (words s) = List.filter nonSpace s.
Proof. unfold words. by rewrite concat_nonEmpty, concat_splitBy. Qed.

(** X1.  Tokenizing keeps the text: the tokens, one after the other, are the
    code units of the text that are not white space, in the same order. *)
Theorem tokenize_content text :
  concat (tokenize text) = List.filter (fun c => negb (isWhiteSpace c)) text.
Proof.
  rewrite tokenize_words, concat_words. apply nonSpace_isolateDandas.
Qed.

(** X2.  Every token is not empty, has no white space, and has a danda or a
    double danda only when it is that mark alone. *)
Theorem tokenize_tokens_well_formed text t :
  t ∈ tokenize text ->
  t <> []
  /\ Forall (fun c => isWhiteSpace c = false) t
  /\ (t = [danda] \/ t = [doubleDanda]
      \/ Forall (fun c => c <> danda /\ c <> doubleDanda) t).
Proof.
  intros Ht. pose proof (words_wellFormed text) as Hall.
  rewrite Forall_forall in Hall. exact (Hall t Ht).
Qed.

Lemma tokenize_tokens_well_formed_witness :
  units "कुरुक्षेत्रे" ∈ tokenize sourceVerse
  /\ Forall (fun c => isWhiteSpace c = false) (units "कुरुक्षेत्रे").
Proof.
  assert (Hin : units "कुरुक्षेत्रे" ∈ tokenize sourceVerse).
  { apply (bool_decide_unpack _). vm_compute. exact I. }
  split; [exact Hin|].
  exact (proj1 (proj2 (tokenize_tokens_well_formed sourceVerse _ Hin))).
Defined.

Lemma filter_nonSpace_nil s :
  List.filter nonSpace s = [] <-> Forall (fun c => isWhiteSpace c = true) s.
Proof.
  induction s as [|c s IH]; simpl; [by split|].
  destruct (isWhiteSpace c) eqn:Hc; simpl.
  - rewrite IH. split; [by constructor|by inversion 1].
  - split; [done|]. inversion 1; congruence.
Qed.

(** X3.  A text has no token exactly when it is empty or all white space; the
    diff of a record whose source text is missing, empty or all white space
    has an empty source HTML, with either strategy. *)
Theorem tokenize_nothing `{LowerCase} text :
  (tokenize text = [] <-> Forall (fun c => isWhiteSpace c = true) text)
  /\ (forall shloka,
        Forall (fun c => isWhiteSpace c = true) (orText (source_text shloka)) ->
        sourceHtml (computeDiff shloka) = []).
Proof.
  assert (Hiff : forall text,
            tokenize text = [] <-> Forall (fun c => isWhiteSpace c = true) text).
  { intros s.
    rewrite <- filter_nonSpace_nil, <- (nonSpace_isolateDandas s), <- concat_words.
    rewrite <- tokenize_words. split.
    - by intros ->.
    - intros Hcat. destruct (tokenize s) as [|t l] eqn:Htok; [done|].
      pose proof (words_wellFormed s) as Hall. rewrite Htok in Hall.
      apply Forall_cons in Hall as [[Hne _] _].
      simpl in Hcat. by apply app_eq_nil in Hcat as [-> _]. }
  split; [apply Hiff|].
  intros shloka Hws. apply Hiff in Hws. unfold computeDiff. rewrite Hws.
  by destruct (usableAlignment shloka).
Qed.

End TokenizeMore.

Module DiffMore.
Import Dashboard DashboardView DiffFacts.

Section Pieces.
Context `{LowerCase}.

Lemma wordOf_annotate b word : wordOf (annotate b word) = word.
Proof. unfold annotate. by destruct (skipped word), b. Qed.

(** X4.  The diff neither drops nor reorders nor rewrites tokens: on both
    sides of both strategies, the words inside the pieces are the tokens given,
    in order. *)
Theorem pieces_keep_tokens (sourceWords targetWords : list jsstring) al :
  wordOf <$> alignedSourcePieces sourceWords al = sourceWords
  /\ wordOf <$> alignedTargetPieces sourceWords targetWords al = targetWords
  /\ wordOf <$> lcsSourcePieces sourceWords targetWords = sourceWords
  /\ wordOf <$> lcsTargetPieces sourceWords targetWords = targetWords.
Proof.
  repeat split.
  - unfold alignedSourcePieces. apply list_eq. intros i.
    rewrite list_lookup_fmap, list_lookup_imap.
    destruct (sourceWords !! i); simpl; [|done]. by rewrite wordOf_annotate.
  - unfold alignedTargetPieces. rewrite <- list_fmap_compose.
    rewrite <- (list_fmap_id targetWords) at 2. apply list_fmap_ext.
    intros i w _. simpl. apply wordOf_annotate.
  - unfold lcsSourcePieces. rewrite <- list_fmap_compose.
    rewrite <- (list_fmap_id sourceWords) at 2. apply list_fmap_ext.
    intros i w _. simpl. apply wordOf_annotate.
  - unfold lcsTargetPieces. rewrite <- list_fmap_compose.
    rewrite <- (list_fmap_id targetWords) at 2. apply list_fmap_ext.
    intros i w _. simpl. apply wordOf_annotate.
Qed.

(** X5.  When the alignment has no [source_words], the target side of the
    alignment-based strategy is the target side of the fallback strategy. *)
Theorem aligned_target_is_fallback (sourceWords targetWords : list jsstring) al :
  source_words al = None ->
  targetHtml (diffWithAlignment sourceWords targetWords al)
  = targetHtml (diffWithLCS sourceWords targetWords).
Proof.
  intros Hnone. unfold diffWithAlignment, diffWithLCS, alignedTargetPieces,
    lcsTargetPieces. simpl. by rewrite Hnone.
Qed.

(** X6.  [source_matched_positions] is used whenever it is there, also when it
    is the empty array: then every source token that is no danda and no
    numeral is marked different, whatever [matched_positions] says. *)
Theorem empty_source_positions_win (sourceWords : list jsstring) al i word :
  source_matched_positions al = Some [] ->
  sourceWords !! i = Some word ->
  skipped word = false ->
  alignedSourcePieces sourceWords al !! i = Some (SpanDifferent word).
Proof.
  intros Hpos Hi Hskip.
  rewrite (alignedSourcePieces_lookup _ _ _ _ Hi), (annotate_content _ _ Hskip).
  unfold sourceMatchedPositions. rewrite Hpos. simpl.
  rewrite bool_decide_eq_false_2; [done|]. apply not_elem_of_empty.
Qed.

(** X7.  Only the positions that are indices of source tokens count: two
    alignments whose position sets agree on the indices below the number of
    source tokens give the same source pieces. *)
Theorem positions_out_of_range_ignored (sourceWords : list jsstring) al al' :
  (forall i, i < length sourceWords ->
     Z.of_nat i ∈ sourceMatchedPositions al
     <-> Z.of_nat i ∈ sourceMatchedPositions al') ->
  alignedSourcePieces sourceWords al = alignedSourcePieces sourceWords al'.
Proof.
  intros Hagree. unfold alignedSourcePieces. apply list_eq. intros i.
  rewrite !list_lookup_imap.
  destruct (sourceWords !! i) as [w|] eqn:Hi; simpl; [|done].
  apply lookup_lt_Some in Hi. f_equal. f_equal.
  apply bool_decide_ext. by apply Hagree.
Qed.

Lemma removeAll_app cls s s' : removeAll cls (s ++ s') = removeAll cls s ++ removeAll cls s'.
Proof. unfold removeAll. apply List.filter_app. Qed.

Lemma strip_app s u :
  replaceAll visarga [] (replaceAll anusvara [ma; virama] (removeAll stripped (s ++ u)))
  = replaceAll visarga [] (replaceAll anusvara [ma; virama] (removeAll stripped s))
    ++ replaceAll visarga []
         (replaceAll anusvara [ma; virama] (removeAll stripped u)).
Proof. by rewrite removeAll_app, !TokenizeFacts.replaceAll_app. Qed.

Lemma stripMarks_anusvara s t :
  stripMarks (s ++ anusvara :: t) = stripMarks (s ++ ma :: virama :: t).
Proof.
  unfold stripMarks. by rewrite !strip_app.
Qed.

Lemma stripMarks_ignored d s t :
  stripped d = true \/ d = visarga ->
  stripMarks (s ++ d :: t) = stripMarks (s ++ t).
Proof.
  intros Hd. unfold stripMarks. rewrite !strip_app.
  change (d :: t) with ([d] ++ t). rewrite (strip_app [d] t).
  destruct Hd as [Hd| ->]; [|done].
  unfold removeAll at 2. simpl List.filter. by rewrite Hd.
Qed.

(** X8.  [normalizeWord] reads an anusvara as ma with virama, and ignores
    dandas, digits and visargas inside a word that has something else. *)
Theorem normalizeWord_spellings s t :
  normalizeWord (s ++ anusvara :: t) = normalizeWord (s ++ ma :: virama :: t)
  /\ (forall d,
        stripped d = true \/ d = visarga -> s ++ t <> [] ->
        normalizeWord (s ++ d :: t) = normalizeWord (s ++ t)).
Proof.
  split.
  - unfold normalizeWord. rewrite stripMarks_anusvara.
    by destruct s.
  - intros d Hd Hne. unfold normalizeWord.
    rewrite (stripMarks_ignored d s t Hd).
    destruct (s ++ t) eqn:Hst; [done|]. by destruct s.
Qed.
End Pieces.

Lemma empty_source_positions_win_witness :
  alignedSourcePieces (tokenize sourceVerse)
    {| source_words := None; target_words := Some [];
       matched_positions := Some [0%Z; 1%Z];
       source_matched_positions := Some [] |} !! 0
  = Some (SpanDifferent (units "धर्मक्षेत्रे")).
Proof.
  assert (Hi : tokenize sourceVerse !! 0 = Some (units "धर्मक्षेत्रे"))
    by (vm_compute; reflexivity).
  assert (Hs : skipped (units "धर्मक्षेत्रे") = false) by (vm_compute; reflexivity).
  exact (empty_source_positions_win (tokenize sourceVerse)
           {| source_words := None; target_words := Some [];
              matched_positions := Some [0%Z; 1%Z];
              source_matched_positions := Some [] |} 0 _ eq_refl Hi Hs).
Defined.

Lemma aligned_target_is_fallback_witness :
  targetHtml (@diffWithAlignment asciiLower (tokenize sourceVerse)
                (tokenize targetVerse) firstTwoMatched)
  = targetHtml (@diffWithLCS asciiLower (tokenize sourceVerse) (tokenize targetVerse)).
Proof.
  exact (@aligned_target_is_fallback asciiLower (tokenize sourceVerse)
           (tokenize targetVerse) firstTwoMatched eq_refl).
Defined.

Lemma positions_out_of_range_ignored_witness :
  alignedSourcePieces [units "a"; units "b"] firstTwoMatched
  = alignedSourcePieces [units "a"; units "b"]
      {| source_words := None; target_words := Some [];
         matched_positions := Some [0%Z; 1%Z; 7%Z; (-3)%Z];
         source_matched_positions := None |}.
Proof.
  apply positions_out_of_range_ignored. intros i Hi. simpl in Hi.
  assert (Hcases : i = 0 \/ i = 1) by lia.
  destruct Hcases as [-> | ->]; split; intros _;
    apply (bool_decide_unpack _); vm_compute; exact I.
Defined.

End DiffMore.

Module ViewFacts.
Import Dashboard PathsFormat.

(** *** [truncateText] *)

Lemma length_ellipsis : length (units "...") = 3.
Proof. reflexivity. Qed.

(** X9.  [truncateText] of paths.js returns [undefined] for [undefined]; a
    text of at most [maxLength] code units is returned as it is; a longer one
    becomes its first [maxLength] code units followed by three dots, so the
    result is never longer than [maxLength + 3] and starts like the text. *)
Theorem truncateText_bounds (t : jsstring) maxLength :
  truncateText None maxLength = None
  /\ exists r,
       truncateText (Some t) maxLength = Some r
       /\ length r <= maxLength + 3
       /\ take maxLength r = take maxLength t
       /\ (length t <= maxLength -> r = t)
       /\ (maxLength < length t ->
           r = take maxLength t ++ units "..." /\ length r = maxLength + 3).
Proof.
  split; [done|]. unfold truncateText.
  destruct (length t =? 0)%nat eqn:Hz; simpl.
  - apply Nat.eqb_eq in Hz. exists t. repeat split; try done; lia.
  - destruct (length t <=? maxLength)%nat eqn:Hle.
    + apply Nat.leb_le in Hle. exists t. repeat split; try done; lia.
    + apply Nat.leb_gt in Hle. eexists. split; [done|].
      assert (Hlen : length (take maxLength t) = maxLength)
        by (rewrite length_take; lia).
      repeat split.
      * rewrite length_app, Hlen, length_ellipsis. lia.
      * rewrite take_app_le by lia. rewrite take_take. f_equal. lia.
      * lia.
      * by rewrite length_app, Hlen, length_ellipsis.
Qed.

Lemma truncate_again (t : jsstring) maxLength :
  maxLength < length t ->
  take maxLength (take maxLength t ++ units "...") ++ units "..."
  = take maxLength t ++ units "...".
Proof.
  intros Hlt. rewrite take_app_le by (rewrite length_take; lia).
  rewrite take_take. do 2 f_equal. lia.
Qed.

(** X10.  Truncating twice is truncating once, for the function of paths.js
    and for the method of the dashboard; and the two agree on every text that
    is there and not empty. *)
Theorem truncateText_idempotent text maxLength :
  truncateText (truncateText text maxLength) maxLength = truncateText text maxLength
  /\ DashboardView.truncateText (Some (DashboardView.truncateText text maxLength))
       maxLength
     = DashboardView.truncateText text maxLength
  /\ (forall t, text = Some t -> t <> [] ->
        truncateText text maxLength
        = Some (DashboardView.truncateText text maxLength)).
Proof.
  destruct text as [t|]; [|by repeat split].
  unfold truncateText, DashboardView.truncateText.
  destruct (length t =? 0)%nat eqn:Hz; simpl.
  - rewrite Hz. simpl. split; [done|]. split; [done|].
    intros ? [= <-] Hne. apply Nat.eqb_eq in Hz. by destruct t.
  - destruct (length t <=? maxLength)%nat eqn:Hle.
    + rewrite Hz, Hle. simpl. split; [done|]. split; [done|]. by intros ? [= <-].
    + apply Nat.leb_gt in Hle.
      assert (Hlen : length (take maxLength t ++ units "...") = maxLength + 3).
      { rewrite length_app, length_take, length_ellipsis. lia. }
      rewrite Hlen.
      replace (maxLength + 3 =? 0)%nat with false by (symmetry; apply Nat.eqb_neq; lia).
      replace (maxLength + 3 <=? maxLength)%nat with false
        by (symmetry; apply Nat.leb_gt; lia).
      simpl. rewrite (truncate_again t maxLength Hle).
      split; [done|]. split; [done|]. by intros ? [= <-].
Qed.

(** *** The filters and the counts on their buttons *)

Lemma length_filter_Permutation (p : Shloka -> bool) l l' :
  l ≡ₚ l' -> length (List.filter p l) = length (List.filter p l').
Proof.
  induction 1 as [|x l l' _ IH|x y l|l l' l'' _ IH1 _ IH2]; simpl.
  - done.
  - destruct (p x); simpl; by rewrite IH.
  - destruct (p x), (p y); done.
  - by rewrite IH1.
Qed.

Lemma length_filter_ext (p q : Shloka -> bool) l :
  (forall s, p s = q s) -> length (List.filter p l) = length (List.filter q l).
Proof.
  intros Hpq. induction l as [|s l IH]; simpl; [done|].
  rewrite Hpq. destruct (q s); simpl; by rewrite IH.
Qed.

Lemma show_status s :
  DashboardView.show "matched" (DashboardView.itemData s)
  = truthyBool (has_match s) && geNumber (similarity s) threshold
  /\ DashboardView.show "unmatched" (DashboardView.itemData s)
     = negb (truthyBool (has_match s))
  /\ DashboardView.show "partial" (DashboardView.itemData s)
     = truthyBool (has_match s) && negb (geNumber (similarity s) threshold).
Proof.
  unfold DashboardView.show, DashboardView.itemData, getMatchStatusClass,
    threshold. simpl.
  destruct (truthyBool (has_match s)); simpl; [|done].
  by destruct (geNumber (similarity s) (9 # 10)).
Qed.

Lemma show_corpus s :
  DashboardView.show "mndutt" (DashboardView.itemData s)
  = isString (match_corpus s) "mndutt"
  /\ DashboardView.show "ce" (DashboardView.itemData s)
     = isString (match_corpus s) "ce"
  /\ DashboardView.show "sarit" (DashboardView.itemData s)
     = isString (match_corpus s) "sarit".
Proof.
  unfold DashboardView.show, DashboardView.itemData, isString, orString. simpl.
  destruct (match_corpus s) as [c|]; [|done].
  destruct (String.eqb_spec c ""); [by subst|done].
Qed.

Lemma show_relation s :
  DashboardView.show "many-to-one" (DashboardView.itemData s)
  = truthyBool (many_to_one s)
  /\ DashboardView.show "one-to-many" (DashboardView.itemData s)
     = truthyBool (one_to_many s).
Proof.
  unfold DashboardView.show, DashboardView.itemData. simpl.
  by destruct (truthyBool (many_to_one s)), (truthyBool (one_to_many s)).
Qed.

Lemma ltNumber_not_ge q c : ltNumber (Some q) c = negb (geNumber (Some q) c).
Proof.
  unfold ltNumber, geNumber. rewrite (StatsFacts.threshold_split q c).
  by rewrite negb_involutive.
Qed.



(** X12.  Every record is visible under exactly one of the three status
    filters, and a filter name that [applyFilter] does not know hides every
    item. *)
Theorem status_filters_partition s :
  length
    (List.filter (fun filter => DashboardView.show filter (DashboardView.itemData s))
       ["matched"; "partial"; "unmatched"]) = 1
  /\ (forall filter records,
        filter ∉ ["all"; "matched"; "partial"; "unmatched"; "mndutt"; "ce";
                  "sarit"; "many-to-one"; "one-to-many"] ->
        DashboardView.visible filter records = []).
Proof.
  split.
  - simpl. destruct (show_status s) as (-> & -> & ->).
    by destruct (truthyBool (has_match s)), (geNumber (similarity s) threshold).
  - intros filter records Hnot. unfold DashboardView.visible.
    assert (Hshow : forall item, DashboardView.show filter item = false).
    { intros item. unfold DashboardView.show.
      repeat match goal with
             | |- context [String.eqb filter ?lit] =>
               destruct (String.eqb_spec filter lit) as [->|_];
                 [exfalso; apply Hnot; set_solver|]
             end.
      done. }
    induction records as [|r records IH]; simpl; [done|]. by rewrite Hshow.
Qed.

(** *** [selectShloka] *)

(** X13.  [selectShloka] finds the first record, in the order of the data,
    whose [id || source_id] is the identifier asked for, and that identifier is
    the [data-id] of its item; it finds nothing exactly when no record has that
    identifier. *)
Theorem selectShloka_finds data i s x :
  data !! i = Some s ->
  DashboardView.idOrSourceId s = Some x ->
  (forall j s', j < i -> data !! j = Some s' ->
     DashboardView.idOrSourceId s' <> Some x) ->
  DashboardView.selectShloka data x = Some s
  /\ DashboardView.dataId (DashboardView.itemData s) = x
  /\ (forall y,
        DashboardView.selectShloka data y = None
        <-> forall s', s' ∈ data -> DashboardView.idOrSourceId s' <> Some y).
Proof.
  intros Hi Hid Hfirst. split; [|split].
  - unfold DashboardView.selectShloka. revert i Hi Hfirst.
    induction data as [|r data IH]; intros i Hi Hfirst; [done|]. simpl.
    destruct i as [|i]; simpl in Hi.
    + injection Hi as ->. by rewrite Hid, String.eqb_refl.
    + pose proof (Hfirst 0 r ltac:(lia) eq_refl) as Hr.
      destruct (DashboardView.idOrSourceId r) as [y|].
      * destruct (String.eqb_spec y x) as [->|_]; [done|].
        apply (IH i Hi). intros j s' Hj Hs'. apply (Hfirst (S j) s'); [lia|done].
      * apply (IH i Hi). intros j s' Hj Hs'. apply (Hfirst (S j) s'); [lia|done].
  - unfold DashboardView.itemData. simpl. by rewrite Hid.
  - intros y. unfold DashboardView.selectShloka. clear.
    induction data as [|r data IH]; simpl.
    + split; [|done]. intros _ s' Hs'. by apply elem_of_nil in Hs'.
    + destruct (DashboardView.idOrSourceId r) as [z|] eqn:Hz.
      * destruct (String.eqb_spec z y) as [->|Hne].
        -- split; [done|]. intros Hall. exfalso. apply (Hall r); [by left|done].
        -- rewrite IH. split.
           ++ intros Hall s' [->|Hs']%elem_of_cons; [congruence|by apply Hall].
           ++ intros Hall s' Hs'. apply Hall. by right.
      * rewrite IH. split.
        -- intros Hall s' [->|Hs']%elem_of_cons; [congruence|by apply Hall].
        -- intros Hall s' Hs'. apply Hall. by right.
Qed.

Lemma selectShloka_finds_witness :
  DashboardView.selectShloka scenarioRecords "s2" = scenarioRecords !! 1.
Proof.
  destruct (scenarioRecords !! 1) as [s|] eqn:Hs; [|vm_compute in Hs; discriminate Hs].
  refine (proj1 (selectShloka_finds scenarioRecords 1 s "s2" Hs _ _)).
  - vm_compute in Hs. injection Hs as <-. reflexivity.
  - intros j s' Hj Hj'. assert (j = 0) as -> by lia.
    vm_compute in Hj'. injection Hj' as <-. vm_compute. discriminate.
Defined.

End ViewFacts.

Module HierarchyMore.
Import Paths PathsOrder HierarchyFacts.

Local Abbreviation freshParva n :=
  {| upaparvas := ∅; pv_stats := zeroStats; pv_name := n |}.
Local Abbreviation freshUpaparva n :=
  {| adhyayas := ∅; u_stats := zeroStats; u_name := n |}.
Local Abbreviation freshAdhyaya n :=
  {| shlokas := []; a_stats := zeroStats; a_name := n |}.


(** *** One step of the loop, level by level *)

Lemma level_step {A} (m : gmap string A) k fresh c c' k0 :
  getProp (ensureProp m k fresh) k = Own c ->
  c = default fresh (m !! k)
  /\ <[k:=c']> (ensureProp m k fresh) !! k0
     = if decide (k0 = k) then Some c' else m !! k0.
Proof.
  intros Hget. split.
  - destruct (getProp_ensureProp _ _ _ _ Hget) as [[-> _]|(-> & _ & -> & _)]; done.
  - case_decide as Hk; [subst; apply lookup_insert_eq|].
    by rewrite lookup_insert_ne, ensureProp_lookup_ne.
Qed.

(** The shape of a step that returns, with the names of the nodes it makes. *)
Lemma addShloka_Normal_named hierarchy shloka hierarchy' :
  addShloka hierarchy shloka = Normal hierarchy' ->
  exists pn un an,
    let pk := (keysOf shloka).1.1 in
    let uk := (keysOf shloka).1.2 in
    let ak := (keysOf shloka).2 in
    let b := truthyBool (has_match shloka) in
    let hierarchy1 := ensureProp hierarchy pk (freshParva (parvaNameOf shloka)) in
    let upaparvas1 :=
      ensureProp (upaparvas pn) uk (freshUpaparva (upaparvaNameOf shloka)) in
    let adhyayas1 :=
      ensureProp (adhyayas un) ak (freshAdhyaya (adhyayaNameOf shloka)) in
    getProp hierarchy1 pk = Own pn
    /\ getProp upaparvas1 uk = Own un
    /\ getProp adhyayas1 ak = Own an
    /\ hierarchy' =
        <[pk :=
           {| upaparvas :=
                <[uk :=
                   {| adhyayas :=
                        <[ak :=
                           {| shlokas := shlokas an ++ [shloka];
                              a_stats := bump b (a_stats an);
                              a_name := a_name an |}]> adhyayas1;
                      u_stats := bump b (u_stats un);
                      u_name := u_name un |}]> upaparvas1;
              pv_stats := bump b (pv_stats pn);
              pv_name := pv_name pn |}]> hierarchy1.
Proof.
  unfold addShloka, parvaNameOf, upaparvaNameOf, adhyayaNameOf, keysOf.
  cbv zeta. simpl fst. simpl snd. intros H.
  repeat
    match type of H with
    | context [match getProp ?m ?k with _ => _ end] =>
      destruct (getProp m k) eqn:?; try discriminate
    end.
  injection H as <-. do 3 eexists. repeat split; eassumption.
Qed.

(** The nodes after a step: the node of the record at each level, and the
    other nodes. *)
Lemma nodes_step hierarchy shloka hierarchy' :
  addShloka hierarchy shloka = Normal hierarchy' ->
  exists pn' un' an',
    let pn := default (freshParva (parvaNameOf shloka))
                (hierarchy !! (keysOf shloka).1.1) in
    let un := default (freshUpaparva (upaparvaNameOf shloka))
                (upaparvaAt hierarchy (keysOf shloka).1.1 (keysOf shloka).1.2) in
    let an := default (freshAdhyaya (adhyayaNameOf shloka))
                (bucketAt hierarchy (keysOf shloka).1.1 (keysOf shloka).1.2
                   (keysOf shloka).2) in
    pv_name pn' = pv_name pn
    /\ u_name un' = u_name un
    /\ an' = {| shlokas := shlokas an ++ [shloka];
                a_stats := bump (truthyBool (has_match shloka)) (a_stats an);
                a_name := a_name an |}
    /\ (forall pk,
          hierarchy' !! pk
          = if decide (pk = (keysOf shloka).1.1) then Some pn'
            else hierarchy !! pk)
    /\ (forall pk uk,
          upaparvaAt hierarchy' pk uk
          = if decide ((pk, uk) = (keysOf shloka).1) then Some un'
            else upaparvaAt hierarchy pk uk)
    /\ (forall pk uk ak,
          bucketAt hierarchy' pk uk ak
          = if decide ((pk, uk, ak) = keysOf shloka) then Some an'
            else bucketAt hierarchy pk uk ak).
Proof.
  intros Hstep.
  destruct (addShloka_Normal_named _ _ _ Hstep)
    as (pn & un & an & Hp & Hu & Ha & ->).
  destruct (keysOf shloka) as [[pks uks] aks] eqn:Hkeys. simpl in *.
  set (an' := {| shlokas := shlokas an ++ [shloka];
                 a_stats := bump (truthyBool (has_match shloka)) (a_stats an);
                 a_name := a_name an |}).
  set (un' := {| adhyayas :=
                   <[aks:=an']> (ensureProp (adhyayas un) aks
                                   (freshAdhyaya (adhyayaNameOf shloka)));
                 u_stats := bump (truthyBool (has_match shloka)) (u_stats un);
                 u_name := u_name un |}).
  set (pn' := {| upaparvas :=
                   <[uks:=un']> (ensureProp (upaparvas pn) uks
                                   (freshUpaparva (upaparvaNameOf shloka)));
                 pv_stats := bump (truthyBool (has_match shloka)) (pv_stats pn);
                 pv_name := pv_name pn |}).
  destruct (level_step _ _ _ _ pn' pks Hp) as [Hpn _].
  destruct (level_step _ _ _ _ un' uks Hu) as [Hun _].
  destruct (level_step _ _ _ _ an' aks Ha) as [Han _].
  assert (Hups : forall uk, upaparvas pn !! uk = upaparvaAt hierarchy pks uk).
  { intros uk. rewrite Hpn. unfold upaparvaAt.
    by destruct (hierarchy !! pks). }
  assert (Hads : forall ak, adhyayas un !! ak = bucketAt hierarchy pks uks ak).
  { intros ak. rewrite Hun, Hups. unfold upaparvaAt, bucketAt.
    destruct (hierarchy !! pks) as [p|]; simpl; [|done].
    by destruct (upaparvas p !! uks). }
  assert (Hparva : forall pk,
            <[pks:=pn']> (ensureProp hierarchy pks
                            (freshParva (parvaNameOf shloka))) !! pk
            = if decide (pk = pks) then Some pn' else hierarchy !! pk).
  { intros pk. by destruct (level_step _ _ _ _ pn' pk Hp) as [_ ->]. }
  assert (Hupa : forall uk,
            upaparvas pn' !! uk
            = if decide (uk = uks) then Some un' else upaparvaAt hierarchy pks uk).
  { intros uk. simpl. destruct (level_step _ _ _ _ un' uk Hu) as [_ ->].
    by rewrite Hups. }
  assert (Hadh : forall ak,
            adhyayas un' !! ak
            = if decide (ak = aks) then Some an' else bucketAt hierarchy pks uks ak).
  { intros ak. simpl. destruct (level_step _ _ _ _ an' ak Ha) as [_ ->].
    by rewrite Hads. }
  exists pn', un', an'. split; [|split; [|split; [|split; [|split]]]].
  - simpl. by rewrite Hpn.
  - simpl. by rewrite Hun, Hups.
  - unfold an'. by rewrite Han, Hads.
  - exact Hparva.
  - intros pk uk. unfold upaparvaAt at 1. rewrite Hparva.
    destruct (decide (pk = pks)) as [->|Hpk].
    + rewrite Hupa. destruct (decide (uk = uks)) as [->|Huk].
      * by rewrite decide_True.
      * rewrite decide_False by congruence. done.
    + rewrite decide_False by congruence. done.
  - intros pk uk ak. unfold bucketAt at 1. rewrite Hparva.
    destruct (decide (pk = pks)) as [->|Hpk].
    + rewrite Hupa. destruct (decide (uk = uks)) as [->|Huk].
      * rewrite Hadh. destruct (decide (ak = aks)) as [->|Hak].
        -- by rewrite decide_True.
        -- rewrite decide_False by congruence. done.
      * rewrite decide_False by congruence.
        unfold upaparvaAt, bucketAt. by destruct (hierarchy !! pks).
    + rewrite decide_False by congruence. done.
Qed.

Lemma addShloka_inOrder hierarchy shloka hierarchy' processed :
  inOrder hierarchy processed ->
  addShloka hierarchy shloka = Normal hierarchy' ->
  inOrder hierarchy' (processed ++ [shloka]).
Proof.
  intros Hin Hstep pk uk ak.
  destruct (nodes_step _ _ _ Hstep) as (pn' & un' & an' & _ & _ & -> & _ & _ & ->).
  specialize (Hin pk uk ak). rewrite List.filter_app. cbn [List.filter].
  case_decide as Hk.
  - rewrite <- Hk. rewrite bool_decide_eq_true_2 by done.
    cbn [fst snd].
    destruct (bucketAt hierarchy pk uk ak) as [a|]; simpl.
    + destruct Hin as [-> _]. split; [done|].
      intros [_ Hnil]%app_eq_nil. discriminate Hnil.
    + rewrite Hin. by split.
  - rewrite bool_decide_eq_false_2 by done. rewrite app_nil_r. exact Hin.
Qed.

Lemma groupFrom_inOrder shlokas hierarchy hierarchy' processed :
  inOrder hierarchy processed ->
  groupFrom hierarchy shlokas = Normal hierarchy' ->
  inOrder hierarchy' (processed ++ shlokas).
Proof.
  revert hierarchy processed.
  induction shlokas as [|s shlokas IH]; simpl; intros h processed Hin.
  - intros [= <-]. by rewrite app_nil_r.
  - destruct (addShloka h s) as [h1|] eqn:Hstep; [|discriminate].
    intros Hrest. rewrite (cons_middle s), (assoc_L (++)).
    apply (IH h1); [|done]. by eapply addShloka_inOrder.
Qed.

(** X15.  In the hierarchy that [groupByHierarchy] returns, the leaf of the
    keys ([pk], [uk], [ak]) holds exactly the input records with these keys, in
    the order of the input; and there is such a leaf exactly when some record
    has these keys. *)
Theorem leaves_in_input_order records hierarchy pk uk ak :
  groupByHierarchy records = Normal hierarchy ->
  match bucketAt hierarchy pk uk ak with
  | Some a =>
    shlokas a = List.filter (fun r => bool_decide (keysOf r = (pk, uk, ak))) records
    /\ shlokas a <> []
  | None =>
    List.filter (fun r => bool_decide (keysOf r = (pk, uk, ak))) records = []
  end.
Proof.
  intros Hrun.
  apply (groupFrom_inOrder records ∅ hierarchy [] ); [|exact Hrun].
  intros pk' uk' ak'. unfold bucketAt. by rewrite lookup_empty.
Qed.

Lemma leaves_in_input_order_witness :
  exists hierarchy a,
    groupByHierarchy [emptyShloka; chapterShloka; emptyShloka] = Normal hierarchy
    /\ bucketAt hierarchy "P01" "U00" "A000" = Some a
    /\ shlokas a = [emptyShloka; emptyShloka].
Proof.
  destruct (groupByHierarchy [emptyShloka; chapterShloka; emptyShloka])
    as [hierarchy|] eqn:Hrun; [|vm_compute in Hrun; discriminate Hrun].
  pose proof (leaves_in_input_order _ hierarchy "P01" "U00" "A000" Hrun) as Hleaf.
  destruct (bucketAt hierarchy "P01" "U00" "A000") as [a|] eqn:Ha.
  - exists hierarchy, a. split; [reflexivity|]. split; [exact Ha|].
    rewrite (proj1 Hleaf). vm_compute. reflexivity.
  - vm_compute in Hleaf. discriminate Hleaf.
Defined.

End HierarchyMore.

Module HierarchyErrors.
Import Paths PathsOrder HierarchyFacts.

Local Abbreviation freshParva n :=
  {| upaparvas := ∅; pv_stats := zeroStats; pv_name := n |}.
Local Abbreviation freshUpaparva n :=
  {| adhyayas := ∅; u_stats := zeroStats; u_name := n |}.
Local Abbreviation freshAdhyaya n :=
  {| shlokas := []; a_stats := zeroStats; a_name := n |}.

Local Abbreviation adhyayasPlain :=
  (fun (_ : string) (u : UpaparvaNode) =>
     map_Forall (fun ak (_ : AdhyayaNode) => inheritedKey ak = false) (adhyayas u)).
Local Abbreviation upaparvasPlain :=
  (fun (_ : string) (p : ParvaNode) =>
     map_Forall
       (fun uk u =>
          inheritedKey uk = false
          /\ map_Forall (fun ak (_ : AdhyayaNode) => inheritedKey ak = false)
               (adhyayas u))
       (upaparvas p)).
Local Abbreviation anyNode := (fun (_ : string) (_ : AdhyayaNode) => True).

Lemma getProp_inherited {A} (m : gmap string A) k fresh :
  inheritedKey k = true -> m !! k = None ->
  getProp (ensureProp m k fresh) k = Inherited.
Proof.
  intros Hin Hk. unfold ensureProp, getProp. rewrite Hk, Hin. simpl.
  by rewrite Hk.
Qed.

Lemma getProp_Own_plain {A} (P : string -> A -> Prop) (m : gmap string A) k fresh c :
  map_Forall (fun k c => inheritedKey k = false /\ P k c) m ->
  P k fresh ->
  getProp (ensureProp m k fresh) k = Own c ->
  inheritedKey k = false /\ P k c
  /\ map_Forall (fun k c => inheritedKey k = false /\ P k c) (ensureProp m k fresh).
Proof.
  intros Hm Hfresh Hget.
  destruct (getProp_ensureProp _ _ _ _ Hget) as [[Hk ->]|(Hk & Hin & -> & ->)].
  - destruct (Hm k c Hk). done.
  - split; [done|]. split; [done|]. by apply map_Forall_insert_2.
Qed.

Lemma plain_lookup_None {A} (P : string -> A -> Prop) (m : gmap string A) k :
  map_Forall (fun k c => inheritedKey k = false /\ P k c) m ->
  inheritedKey k = true -> m !! k = None.
Proof.
  intros Hm Hin. destruct (m !! k) as [c|] eqn:Hk; [|done].
  destruct (Hm k c Hk). congruence.
Qed.

Lemma addShloka_ownKeysPlain hierarchy shloka hierarchy' :
  ownKeysPlain hierarchy ->
  addShloka hierarchy shloka = Normal hierarchy' ->
  ownKeysPlain hierarchy'.
Proof.
  intros Hplain Hstep.
  destruct (addShloka_Normal _ _ _ Hstep)
    as (pn & un & an & pname & uname & aname & Hp & Hu & Ha & ->).
  unfold ownKeysPlain in *.
  destruct (getProp_Own_plain upaparvasPlain hierarchy _ _ _ Hplain
              (map_Forall_empty _) Hp) as (Hpk & Hpn & Hh1).
  destruct (getProp_Own_plain adhyayasPlain (upaparvas pn) _ _ _ Hpn
              (map_Forall_empty _) Hu) as (Huk & Hun & Hu1).
  assert (Hun' : map_Forall (fun k c => inheritedKey k = false /\ anyNode k c)
                   (adhyayas un)).
  { eapply map_Forall_impl; [exact Hun|]. by intros ? ? ?. }
  destruct (getProp_Own_plain anyNode (adhyayas un) _ _ _ Hun' I Ha)
    as (Hak & _ & Ha1).
  apply map_Forall_insert_2; [|exact Hh1]. split; [done|]. simpl.
  apply map_Forall_insert_2; [|exact Hu1]. split; [done|]. simpl.
  apply map_Forall_insert_2; [done|].
  eapply map_Forall_impl; [exact Ha1|]. by intros ? ? [? _].
Qed.

Lemma addShloka_throws hierarchy shloka :
  ownKeysPlain hierarchy ->
  inheritedKeys shloka = true ->
  addShloka hierarchy shloka = Throw.
Proof.
  intros Hplain Hin. unfold inheritedKeys in Hin.
  unfold addShloka. cbv zeta. fold (keysOf shloka).
  change (orString (Some (parva (parseSrirangaHierarchy shloka))) "Unknown")
    with (keysOf shloka).1.1.
  change (orString (Some (upaparva (parseSrirangaHierarchy shloka))) "Unknown")
    with (keysOf shloka).1.2.
  change (orString (Some (adhyaya (parseSrirangaHierarchy shloka))) "Unknown")
    with (keysOf shloka).2.
  destruct (inheritedKey (keysOf shloka).1.1) eqn:Hpk.
  { rewrite getProp_inherited; [done|done|].
    by eapply (plain_lookup_None upaparvasPlain hierarchy). }
  destruct (ensureProp_plain hierarchy (keysOf shloka).1.1
              (freshParva (orString (Some (parvaName (parseSrirangaHierarchy shloka)))
                             (keysOf shloka).1.1)) Hpk) as [pn Hp].
  rewrite Hp.
  destruct (getProp_Own_plain upaparvasPlain hierarchy _ _ _ Hplain
              (map_Forall_empty _) Hp) as (_ & Hpn & _).
  destruct (inheritedKey (keysOf shloka).1.2) eqn:Huk.
  { rewrite getProp_inherited; [done|done|].
    by eapply (plain_lookup_None adhyayasPlain (upaparvas pn)). }
  destruct (ensureProp_plain (upaparvas pn) (keysOf shloka).1.2
              (freshUpaparva
                 (orString (Some (upaparvaName (parseSrirangaHierarchy shloka)))
                    (keysOf shloka).1.2)) Huk) as [un Hu].
  rewrite Hu.
  destruct (getProp_Own_plain adhyayasPlain (upaparvas pn) _ _ _ Hpn
              (map_Forall_empty _) Hu) as (_ & Hun & _).
  simpl in Hin. rewrite getProp_inherited; [done|done|].
  eapply (plain_lookup_None anyNode (adhyayas un)); [|done].
  eapply map_Forall_impl; [exact Hun|]. by intros ? ? ?.
Qed.

Lemma addShloka_returns hierarchy shloka :
  inheritedKeys shloka = false ->
  exists hierarchy', addShloka hierarchy shloka = Normal hierarchy'.
Proof.
  unfold inheritedKeys. intros Hin.
  apply orb_false_iff in Hin as [Hin Ha]. apply orb_false_iff in Hin as [Hp Hu].
  by apply addShloka_plain.
Qed.

Lemma groupFrom_throws shlokas hierarchy :
  ownKeysPlain hierarchy ->
  groupFrom hierarchy shlokas = Throw <-> existsb inheritedKeys shlokas = true.
Proof.
  revert hierarchy. induction shlokas as [|s shlokas IH]; simpl; intros h Hplain.
  - done.
  - destruct (inheritedKeys s) eqn:Hs; simpl.
    + by rewrite (addShloka_throws h s Hplain Hs).
    + destruct (addShloka_returns h s Hs) as [h1 Hstep]. rewrite Hstep.
      apply IH. by eapply addShloka_ownKeysPlain.
Qed.

(** X16.  [groupByHierarchy] throws exactly when one of the records is filed
    under a key that is a property name of [Object.prototype]; such a record
    carries the three hierarchy identifiers, one of which is that name.  The
    keys made from the chapter never make it throw. *)
Theorem groupByHierarchy_throws_iff records :
  (groupByHierarchy records = Throw <-> existsb inheritedKeys records = true)
  /\ (forall r,
        inheritedKeys r = true ->
        exists p u a,
          parva_id r = Some p /\ upaparva_id r = Some u /\ adhyaya_id r = Some a
          /\ (p ∈ objectPrototypeKeys \/ u ∈ objectPrototypeKeys
              \/ a ∈ objectPrototypeKeys)).
Proof.
  split.
  - apply groupFrom_throws. apply map_Forall_empty.
  - intros r Hin. unfold inheritedKeys in Hin.
    destruct (keysOf_cases r) as [(p & u & a & Hp & Hu & Ha & Hk)|(x & y & Hk)];
      rewrite Hk in Hin; simpl in Hin.
    + exists p, u, a. repeat split; try done.
      apply orb_true_iff in Hin as [Hin|Hin];
        [apply orb_true_iff in Hin as [Hin|Hin]|];
        apply bool_decide_eq_true in Hin; tauto.
    + rewrite !synthetic_key_plain in Hin by tauto. done.
Qed.

End HierarchyErrors.

Module HierarchyNames.
Import Paths PathsOrder HierarchyFacts HierarchyMore.

Local Abbreviation freshParva n :=
  {| upaparvas := ∅; pv_stats := zeroStats; pv_name := n |}.
Local Abbreviation freshUpaparva n :=
  {| adhyayas := ∅; u_stats := zeroStats; u_name := n |}.
Local Abbreviation freshAdhyaya n :=
  {| shlokas := []; a_stats := zeroStats; a_name := n |}.

Lemma namedAfterFirst_step {K N : Type} `{EqDecision K} (key : Shloka -> K)
    (nameOf : Shloka -> string) (name : N -> string) (old new : K -> option N)
    processed s fresh n' :
  namedAfterFirst key nameOf name old processed ->
  name fresh = nameOf s ->
  name n' = name (default fresh (old (key s))) ->
  (forall k, new k = if decide (k = key s) then Some n' else old k) ->
  namedAfterFirst key nameOf name new (processed ++ [s]).
Proof.
  intros Hinv Hfresh Hn' Hnew k. rewrite Hnew. specialize (Hinv k).
  unfold firstWith in *. rewrite List.filter_app. cbn [List.filter].
  case_decide as Hk.
  - subst k. rewrite bool_decide_eq_true_2 by done.
    destruct (old (key s)) as [n|]; simpl in Hn'.
    + destruct Hinv as (r & Hr & Hname). exists r. split; [|congruence].
      destruct (List.filter _ processed); [done|]. exact Hr.
    + exists s. split; [|congruence].
      destruct (List.filter _ processed); [done|]. discriminate Hinv.
  - rewrite bool_decide_eq_false_2 by congruence. by rewrite app_nil_r.
Qed.

Lemma addShloka_allNamed hierarchy shloka hierarchy' processed :
  allNamed hierarchy processed ->
  addShloka hierarchy shloka = Normal hierarchy' ->
  allNamed hierarchy' (processed ++ [shloka]).
Proof.
  intros (HP & HU & HA) Hstep.
  destruct (nodes_step _ _ _ Hstep)
    as (pn' & un' & an' & Hpn & Hun & Han & Hparva & Hupa & Hadh).
  split; [|split].
  - eapply (namedAfterFirst_step _ _ _ _ _ _ _
              (freshParva (parvaNameOf shloka)) pn' HP); [done|exact Hpn|].
    intros pk. apply Hparva.
  - eapply (namedAfterFirst_step _ _ _ _ _ _ _
              (freshUpaparva (upaparvaNameOf shloka)) un' HU); [done|exact Hun|].
    intros [pk uk]. apply Hupa.
  - eapply (namedAfterFirst_step _ _ _ _ _ _ _
              (freshAdhyaya (adhyayaNameOf shloka)) an' HA); [done| |].
    + rewrite Han. by destruct (keysOf shloka) as [[? ?] ?].
    + intros [[pk uk] ak]. apply Hadh.
Qed.

Lemma groupFrom_allNamed shlokas hierarchy hierarchy' processed :
  allNamed hierarchy processed ->
  groupFrom hierarchy shlokas = Normal hierarchy' ->
  allNamed hierarchy' (processed ++ shlokas).
Proof.
  revert hierarchy processed.
  induction shlokas as [|s shlokas IH]; simpl; intros h processed Hin.
  - intros [= <-]. by rewrite app_nil_r.
  - destruct (addShloka h s) as [h1|] eqn:Hstep; [|discriminate].
    intros Hrest. rewrite (cons_middle s), (assoc_L (++)).
    apply (IH h1); [|done]. by eapply addShloka_allNamed.
Qed.

(** X17.  In the hierarchy that [groupByHierarchy] returns, every parva,
    upaparva and adhyaya node carries the display name computed from the first
    input record filed under it: later records never rename a node.  A key has
    a node exactly when some input record is filed under it. *)
Theorem names_are_first_seen records hierarchy :
  groupByHierarchy records = Normal hierarchy ->
  namedAfterFirst (fun r => (keysOf r).1.1) parvaNameOf pv_name
    (fun pk => hierarchy !! pk) records
  /\ namedAfterFirst (fun r => (keysOf r).1) upaparvaNameOf u_name
       (fun k => upaparvaAt hierarchy k.1 k.2) records
  /\ namedAfterFirst keysOf adhyayaNameOf a_name
       (fun k => bucketAt hierarchy k.1.1 k.1.2 k.2) records.
Proof.
  intros Hrun. apply (groupFrom_allNamed records ∅ hierarchy []); [|exact Hrun].
  repeat split; intros k; unfold upaparvaAt, bucketAt; by rewrite lookup_empty.
Qed.

Lemma names_are_first_seen_witness :
  exists hierarchy p,
    groupByHierarchy [namedShloka "Adi"; namedShloka "Sabha"] = Normal hierarchy
    /\ hierarchy !! "P02" = Some p
    /\ pv_name p = "Adi".
Proof.
  destruct (groupByHierarchy [namedShloka "Adi"; namedShloka "Sabha"])
    as [hierarchy|] eqn:Hrun; [|vm_compute in Hrun; discriminate Hrun].
  pose proof (proj1 (names_are_first_seen _ hierarchy Hrun) "P02") as Hname.
  cbv beta in Hname.
  destruct (hierarchy !! "P02") as [p|] eqn:Hp.
  - exists hierarchy, p. split; [reflexivity|]. split; [exact Hp|].
    destruct Hname as (r & Hr & ->). vm_compute in Hr. injection Hr as <-.
    vm_compute. reflexivity.
  - vm_compute in Hname. discriminate Hname.
Defined.

End HierarchyNames.

Module KeyFacts.
Import Paths PathsOrder PathsFormat.

(** *** Decimal numerals *)

Lemma pretty_N_go_head x s :
  (0 < x)%N ->
  exists c rest, pretty_N_go x s = String c rest /\ c <> "0"%char.
Proof.
  revert s. induction (N.lt_wf_0 x) as [x _ IH]; intros s Hx.
  rewrite pretty_N_go_step by done.
  destruct (decide (x < 10)%N) as [Hlt|Hge].
  - rewrite N.div_small, pretty_N_go_0 by done. rewrite N.mod_small by done.
    eexists _, _. split; [done|].
    assert (x = 1 \/ x = 2 \/ x = 3 \/ x = 4 \/ x = 5 \/ x = 6 \/ x = 7
            \/ x = 8 \/ x = 9)%N as Hcases by lia.
    by repeat (destruct Hcases as [-> | Hcases]; [done|]); subst.
  - apply IH.
    + apply N.div_lt; lia.
    + apply N.div_str_pos. lia.
Qed.

Lemma pretty_Z_head (z : Z) :
  z <> 0%Z -> exists c rest, pretty z = String c rest /\ c <> "0"%char.
Proof.
  intros Hz. destruct z as [|p|p]; [done| |].
  - change (pretty (Z.pos p)) with (pretty_N_go (N.pos p) "").
    by apply pretty_N_go_head.
  - change (pretty (Z.neg p)) with (String "-" (pretty (N.pos p))). eauto.
Qed.

Lemma stripZeros_zeros k s :
  stripZeros (String.string_of_list_ascii (replicate k "0"%char) +:+ s)
  = stripZeros s.
Proof. induction k as [|k IH]; simpl; [done|exact IH]. Qed.

Lemma stripZeros_padStart n (z : Z) :
  stripZeros (padStart n (String_of_number z))
  = if decide (z = 0%Z) then "" else String_of_number z.
Proof.
  unfold padStart. rewrite stripZeros_zeros. unfold String_of_number.
  case_decide as Hz; [by subst|].
  destruct (pretty_Z_head z Hz) as (c & rest & -> & Hc). simpl.
  destruct (Ascii.eqb_spec c "0"); congruence.
Qed.

(** A padded number is the pad of one number only. *)
Lemma padStart_number_inj n (z1 z2 : Z) :
  padStart n (String_of_number z1) = padStart n (String_of_number z2) -> z1 = z2.
Proof.
  intros Heq. apply (f_equal stripZeros) in Heq.
  rewrite !stripZeros_padStart in Heq. unfold String_of_number in Heq.
  repeat case_decide; subst; try done.
  - destruct (pretty_Z_head z2) as (c & rest & Hp & _); [done|]. congruence.
  - destruct (pretty_Z_head z1) as (c & rest & Hp & _); [done|]. congruence.
  - by apply (inj pretty).
Qed.

Lemma length_append (s t : string) :
  String.length (s +:+ t) = String.length s + String.length t.
Proof. induction s as [|c s IH]; simpl; [done|]. by rewrite IH. Qed.

Lemma append_inv_tail (s1 s2 t : string) : s1 +:+ t = s2 +:+ t -> s1 = s2.
Proof.
  revert s2. induction s1 as [|c s1 IH]; intros [|d s2] Heq; simpl in *.
  - done.
  - apply (f_equal String.length) in Heq. rewrite !length_append in Heq.
    simpl in Heq. lia.
  - apply (f_equal String.length) in Heq. rewrite !length_append in Heq.
    simpl in Heq. lia.
  - injection Heq as -> Heq. f_equal. by apply IH.
Qed.

Lemma append_inv_head (s t1 t2 : string) : s +:+ t1 = s +:+ t2 -> t1 = t2.
Proof.
  induction s as [|c s IH]; simpl; [done|]. intros [= Heq]. by apply IH.
Qed.

(** X18.  Two book numbers never share a mapping file: the paths of two
    books are equal exactly when the books are. *)
Theorem getBookMappingPath_inj (b1 b2 : Z) :
  getBookMappingPath b1 = getBookMappingPath b2 <-> b1 = b2.
Proof.
  split; [|by intros ->].
  unfold getBookMappingPath. intros Heq.
  apply append_inv_head, append_inv_tail in Heq.
  by apply padStart_number_inj in Heq.
Qed.



(** *** Percentages *)

Lemma percentage_bounds part total :
  0 < total -> part <= total ->
  (0 <= Dashboard.percentage part total /\ Dashboard.percentage part total <= 100)%Q.
Proof.
  intros Hpos Hle. unfold Dashboard.percentage.
  assert (Htot : (0 < inject_Z (Z.of_nat total))%Q).
  { unfold Qlt. simpl. lia. }
  assert (Hpart : (0 <= inject_Z (Z.of_nat part))%Q).
  { unfold Qle. simpl. lia. }
  assert (Hpt : (inject_Z (Z.of_nat part) <= inject_Z (Z.of_nat total))%Q).
  { rewrite <- Zle_Qle. lia. }
  split.
  - apply Qmult_le_0_compat; [|done].
    apply Qle_shift_div_l; [done|]. by rewrite Qmult_0_l.
  - assert (Hone : (inject_Z (Z.of_nat part) / inject_Z (Z.of_nat total) <= 1)%Q).
    { apply Qle_shift_div_r; [done|]. by rewrite Qmult_1_l. }
    apply (Qmult_le_compat_r _ _ 100) in Hone; [|done].
    by rewrite Qmult_1_l in Hone.
Qed.



(** X21.  The status class of a record is "matched" exactly when the record
    is matched and the class of its similarity is "high"; an unmatched record
    has the class "unmatched" whatever its similarity; and a similarity that is
    missing has the class "low". *)
Theorem status_and_similarity_classes shloka :
  (getMatchStatusClass shloka = "matched"
   <-> truthyBool (has_match shloka) = true
       /\ getSimilarityClass (similarity shloka) = "high")
  /\ (getMatchStatusClass shloka = "unmatched"
      <-> truthyBool (has_match shloka) = false)
  /\ getSimilarityClass None = "low".
Proof.
  unfold getMatchStatusClass, getSimilarityClass.
  destruct (truthyBool (has_match shloka)),
    (Dashboard.geNumber (similarity shloka) (9 # 10)),
    (Dashboard.geNumber (similarity shloka) (7 # 10)); simpl;
    intuition discriminate.
Qed.

End KeyFacts.

Module CountFacts.
Import Paths HierarchyFacts.

Lemma countIf_split_total (p : Shloka -> bool) data :
  Dashboard.countIf p data + Dashboard.countIf (fun s => negb (p s)) data
  = length data.
Proof.
  unfold Dashboard.countIf. induction data as [|s data IH]; simpl; [done|].
  destruct (p s); simpl; lia.
Qed.

Lemma countIf_le (p : Shloka -> bool) data : Dashboard.countIf p data <= length data.
Proof.
  unfold Dashboard.countIf. induction data as [|s data IH]; simpl; [done|].
  destruct (p s); simpl; lia.
Qed.

Lemma countIf_and_le (p q : Shloka -> bool) data :
  Dashboard.countIf (fun s => p s && q s) data <= Dashboard.countIf p data.
Proof.
  unfold Dashboard.countIf. induction data as [|s data IH]; simpl; [done|].
  destruct (p s), (q s); simpl; lia.
Qed.

Lemma corpus_counts_le data :
  Dashboard.countIf (fun s => Dashboard.isString (match_corpus s) "mndutt") data
  + Dashboard.countIf (fun s => Dashboard.isString (match_corpus s) "ce") data
  + Dashboard.countIf (fun s => Dashboard.isString (match_corpus s) "sarit") data
  <= length data.
Proof.
  unfold Dashboard.countIf, Dashboard.isString.
  induction data as [|s data IH]; simpl; [done|].
  destruct (match_corpus s) as [c|]; [|lia].
  destruct (String.eqb_spec c "mndutt") as [->|_]; simpl; [lia|].
  destruct (String.eqb_spec c "ce") as [->|_]; simpl; [lia|].
  destruct (String.eqb c "sarit"); simpl; lia.
Qed.

(** X22.  The counters of the statistics add up: every record is either
    counted as matched or as unmatched; the high-confidence and the partial
    records are among the matched ones; the three corpus counters together do
    not exceed the total; and when every matched record carries a similarity,
    high confidence, partial and unmatched add up to the total. *)
Theorem stats_add_up data :
  let stats := Dashboard.buildStats data in
  Dashboard.allMatched stats + Dashboard.unmatched stats = Dashboard.total stats
  /\ Dashboard.highConfidence stats <= Dashboard.allMatched stats
  /\ Dashboard.partial stats <= Dashboard.allMatched stats
  /\ Dashboard.mndutt stats + Dashboard.ce stats + Dashboard.sarit stats
     <= Dashboard.total stats
  /\ Dashboard.matched stats = Dashboard.highConfidence stats
  /\ (forallb Dashboard.scored data = true ->
      Dashboard.highConfidence stats + Dashboard.partial stats
      + Dashboard.unmatched stats = Dashboard.total stats).
Proof.
  simpl. split; [apply countIf_split_total|].
  split; [apply (countIf_and_le (fun s => truthyBool (has_match s)))|].
  split; [apply (countIf_and_le (fun s => truthyBool (has_match s)))|].
  split; [apply corpus_counts_le|]. split; [done|].
  intros Hscored.
  rewrite (StatsFacts.countIf_split (fun s => truthyBool (has_match s))
             (fun s => Dashboard.geNumber (similarity s) Dashboard.threshold)
             (fun s => Dashboard.ltNumber (similarity s) Dashboard.threshold));
    [apply countIf_split_total|].
  apply Forall_forall. intros s Hs Hmatch.
  assert (Hsc : Dashboard.scored s = true).
  { eapply (proj1 (forallb_forall Dashboard.scored data) Hscored).
    by apply list_elem_of_In. }
  unfold Dashboard.scored in Hsc. rewrite Hmatch in Hsc. simpl in Hsc.
  destruct (similarity s) as [q|]; [|done]. simpl.
  apply StatsFacts.threshold_split.
Qed.

Lemma sumOver_count_collect {A} (p : Shloka -> bool) (f : A -> nat)
    (g : A -> list Shloka) (m : gmap string A) :
  (forall k c, m !! k = Some c -> f c = length (List.filter p (g c))) ->
  sumOver f m = length (List.filter p (collect g m)).
Proof.
  intros Hfg. unfold sumOver, collect.
  assert (H : Forall (fun kv => f kv.2 = length (List.filter p (g kv.2)))
                (map_to_list m)).
  { apply Forall_forall. intros [k c] Hin. apply (Hfg k).
    by apply elem_of_map_to_list. }
  induction H as [|kv l Hkv _ IH]; simpl; [done|].
  by rewrite List.filter_app, length_app, Hkv, IH.
Qed.

Lemma parva_counts hierarchy (p : Shloka -> bool) (count : Stats -> nat) :
  hierarchyInv hierarchy ->
  (forall records, count (leafStats records) = length (List.filter p records)) ->
  (forall {A} (stats : A -> Stats) (m : gmap string A),
      count (childrenStats stats m) = sumOver (fun c => count (stats c)) m) ->
  sumOver (fun pn => count (pv_stats pn)) hierarchy
  = length (List.filter p (leafShlokas hierarchy)).
Proof.
  intros Hinv Hleaf Hkids. unfold leafShlokas.
  apply sumOver_count_collect. intros pk pn Hp.
  destruct (Hinv pk pn Hp) as [-> Hus]. rewrite Hkids.
  apply sumOver_count_collect. intros uk u Hu.
  destruct (Hus uk u Hu) as [-> Has]. rewrite Hkids.
  apply sumOver_count_collect. intros ak a Ha.
  pose proof (Has ak a Ha) as Hinva. unfold adhyayaInv in Hinva.
  by rewrite Hinva, Hleaf.
Qed.

(** X23.  The badges of the tree agree with the statistics: in the hierarchy
    built from [data], the [matched] counts of the parvas add up to
    [allMatched], their [unmatched] counts to [unmatched] and their [total]
    counts to [total]. *)
Theorem parva_badges_add_up data hierarchy :
  groupByHierarchy data = Normal hierarchy ->
  let stats := Dashboard.buildStats data in
  sumOver (fun pn => matched (pv_stats pn)) hierarchy = Dashboard.allMatched stats
  /\ sumOver (fun pn => unmatched (pv_stats pn)) hierarchy
     = Dashboard.unmatched stats
  /\ sumOver (fun pn => total (pv_stats pn)) hierarchy = Dashboard.total stats.
Proof.
  intros Hrun. simpl.
  pose proof (groupFrom_inv _ _ _ hierarchyInv_empty Hrun) as Hinv.
  assert (Hperm : leafShlokas hierarchy ≡ₚ data).
  { rewrite (groupFrom_leafShlokas _ _ _ Hrun). unfold leafShlokas.
    by rewrite collect_empty. }
  unfold Dashboard.countIf. split; [|split].
  - rewrite <- (ViewFacts.length_filter_Permutation _ _ _ Hperm).
    by apply (parva_counts hierarchy _ matched).
  - rewrite <- (ViewFacts.length_filter_Permutation _ _ _ Hperm).
    by apply (parva_counts hierarchy _ unmatched).
  - rewrite <- (Permutation_length Hperm).
    rewrite (parva_counts hierarchy (fun _ => true) total Hinv).
    + f_equal. clear. induction (leafShlokas hierarchy) as [|s l IH]; simpl;
        [done|]. by rewrite IH.
    + intros records. simpl. f_equal.
      induction records as [|s l IH]; simpl; [done|]. by rewrite <- IH.
    + done.
Qed.

Lemma parva_badges_add_up_witness :
  exists hierarchy,
    groupByHierarchy sampleRecords = Normal hierarchy
    /\ sumOver (fun pn => matched (pv_stats pn)) hierarchy
       = Dashboard.allMatched (Dashboard.buildStats sampleRecords).
Proof.
  destruct (groupByHierarchy sampleRecords) as [hierarchy|] eqn:Hrun.
  - exists hierarchy. split; [reflexivity|].
    exact (proj1 (parva_badges_add_up sampleRecords hierarchy Hrun)).
  - vm_compute in Hrun. discriminate Hrun.
Defined.

Lemma orString_nonempty o d : d <> "" -> orString o d <> "".
Proof.
  intros Hd. destruct o as [s|]; simpl; [|done].
  destruct (String.eqb_spec s ""); congruence.
Qed.

(** X24.  The six strings that [parseSrirangaHierarchy] returns are never
    empty, so the defaults of [groupByHierarchy] (the key ['Unknown'], and the
    key as display name) are never used: the keys and the names of a record
    are the ones returned by [parseSrirangaHierarchy]. *)
Theorem parsed_strings_never_empty shloka :
  let parsed := parseSrirangaHierarchy shloka in
  parva parsed <> "" /\ upaparva parsed <> "" /\ adhyaya parsed <> ""
  /\ parvaName parsed <> "" /\ upaparvaName parsed <> ""
  /\ adhyayaName parsed <> ""
  /\ keysOf shloka = (parva parsed, upaparva parsed, adhyaya parsed)
  /\ PathsOrder.parvaNameOf shloka = parvaName parsed
  /\ PathsOrder.upaparvaNameOf shloka = upaparvaName parsed
  /\ PathsOrder.adhyayaNameOf shloka = adhyayaName parsed.
Proof.
  assert (Hne : let parsed := parseSrirangaHierarchy shloka in
            parva parsed <> "" /\ upaparva parsed <> "" /\ adhyaya parsed <> ""
            /\ parvaName parsed <> "" /\ upaparvaName parsed <> ""
            /\ adhyayaName parsed <> "").
  { unfold parseSrirangaHierarchy.
    destruct (truthyString (parva_id shloka)) eqn:Hp; simpl;
      [destruct (truthyString (upaparva_id shloka)) eqn:Hu; simpl;
         [destruct (truthyString (adhyaya_id shloka)) eqn:Ha; simpl|]|];
      try (repeat split; discriminate).
    apply truthyString_Some in Hp as (p & _ & -> & Hpne).
    apply truthyString_Some in Hu as (u & _ & -> & Hune).
    apply truthyString_Some in Ha as (a & _ & -> & Hane).
    repeat split; try done; by apply orString_nonempty. }
  simpl in *. destruct Hne as (H1 & H2 & H3 & H4 & H5 & H6).
  repeat split; try done.
  - unfold keysOf. by rewrite !orString_Some.
  - unfold PathsOrder.parvaNameOf. by rewrite orString_Some.
  - unfold PathsOrder.upaparvaNameOf. by rewrite orString_Some.
  - unfold PathsOrder.adhyayaNameOf. by rewrite orString_Some.
Qed.

End CountFacts.

Module IdFacts.
Import Dashboard PathsId.

Lemma digitRun_app d rest :
  Forall (fun c => isAsciiDigit c = true) d -> noDigitAhead rest ->
  digitRun (d ++ rest) = (d, rest).
Proof.
  intros Hd Hrest. induction Hd as [|c d Hc _ IH]; simpl.
  - destruct rest as [|c r]; [done|]. simpl in *. by rewrite Hrest.
  - by rewrite Hc, IH.
Qed.

Lemma digitRun_whole d :
  Forall (fun c => isAsciiDigit c = true) d -> digitRun d = (d, []).
Proof. intros Hd. rewrite <- (app_nil_r d) at 1. by apply digitRun_app. Qed.

Lemma stripPrefix_app p s : stripPrefix p (p ++ s) = Some s.
Proof. induction p as [|a p IH]; simpl; [done|]. by rewrite N.eqb_refl. Qed.

Lemma stripPrefix_inv p s r : stripPrefix p s = Some r -> s = p ++ r.
Proof.
  revert s. induction p as [|a p IH]; intros [|b s]; simpl; try congruence.
  destruct (N.eqb_spec a b) as [->|]; [|done]. intros H. by rewrite (IH _ H).
Qed.

Lemma digit_trimStart d :
  Forall (fun c => isAsciiDigit c = true) d -> trimStart d = d.
Proof.
  intros [|c d' Hc _]; [done|]. simpl.
  assert (isWhiteSpace c = false) as ->; [|done].
  unfold isAsciiDigit in Hc. apply andb_true_iff in Hc as [H1 H2].
  apply N.leb_le in H1, H2. unfold isWhiteSpace.
  repeat (apply orb_false_intro); try (apply N.eqb_neq; lia).
  - apply andb_false_intro2. apply N.leb_gt. lia.
  - apply andb_false_intro1. apply N.leb_gt. lia.
Qed.

Lemma parseInt_digits d : digitString d -> parseInt d = Some (digitsValue d).
Proof.
  intros [Hne Hd]. unfold parseInt. rewrite (digit_trimStart d Hd).
  destruct d as [|c d']; [done|].
  assert (Hc : isAsciiDigit c = true) by (by inversion Hd).
  assert ((c =? 45)%N = false /\ (c =? 43)%N = false) as [-> ->].
  { unfold isAsciiDigit in Hc. apply andb_true_iff in Hc as [H1 H2].
    apply N.leb_le in H1, H2. split; apply N.eqb_neq; lia. }
  rewrite (digitRun_whole _ Hd). f_equal. lia.
Qed.

Lemma underscore_noDigit r : noDigitAhead (UNDERSCORE :: r).
Proof. done. Qed.

Lemma matchHere_new d1 d2 d3 rest :
  digitString d1 -> digitString d2 -> digitString d3 -> noDigitAhead rest ->
  matchHere (units "sriranga_" ++ d1 ++ UNDERSCORE :: d2 ++ UNDERSCORE :: d3 ++ rest)
  = Some (d1, d2, d3).
Proof.
  intros [N1 D1] [N2 D2] [N3 D3] Hrest. unfold matchHere.
  rewrite stripPrefix_app.
  rewrite (digitRun_app d1 _ D1 (underscore_noDigit _)).
  destruct d1 as [|c1 d1]; [done|]. rewrite N.eqb_refl.
  rewrite (digitRun_app d2 _ D2 (underscore_noDigit _)).
  destruct d2 as [|c2 d2]; [done|]. rewrite N.eqb_refl.
  rewrite (digitRun_app d3 _ D3 Hrest).
  by destruct d3.
Qed.

Lemma matchNew_here s g : matchHere s = Some g -> matchNew s = Some g.
Proof. intros H. destruct s; cbn [matchNew]; by rewrite H. Qed.


Lemma underscores_app s t : underscores (s ++ t) = (underscores s + underscores t)%nat.
Proof. unfold underscores. by rewrite List.filter_app, length_app. Qed.

Lemma digitRun_split s d r : digitRun s = (d, r) -> s = d ++ r.
Proof.
  revert d r. induction s as [|c s IH]; simpl; intros d r H.
  - by inversion H.
  - destruct (isAsciiDigit c).
    + destruct (digitRun s) as [d' r']. inversion H; subst. simpl.
      f_equal. by apply IH.
    + by inversion H.
Qed.

Lemma matchHere_underscores s g : matchHere s = Some g -> (3 <= underscores s)%nat.
Proof.
  unfold matchHere. destruct (stripPrefix _ s) as [r1|] eqn:Hp; [|done].
  apply stripPrefix_inv in Hp. subst s.
  rewrite underscores_app.
  assert (underscores (units "sriranga_") = 1%nat) as -> by (vm_compute; reflexivity).
  destruct (digitRun r1) as [d1 r] eqn:H1. apply digitRun_split in H1. subst r1.
  destruct d1 as [|c1 d1]; [done|]. destruct r as [|u1 r2]; [done|].
  destruct (N.eqb_spec u1 UNDERSCORE) as [->|]; [|done].
  destruct (digitRun r2) as [d2 r] eqn:H2. apply digitRun_split in H2. subst r2.
  destruct d2 as [|c2 d2]; [done|]. destruct r as [|u2 r3]; [done|].
  destruct (N.eqb_spec u2 UNDERSCORE) as [->|]; [|done].
  intros _. rewrite underscores_app.
  change (underscores (UNDERSCORE :: ?x)) with (S (underscores x)).
  rewrite underscores_app.
  change (underscores (UNDERSCORE :: r3)) with (S (underscores r3)). lia.
Qed.

Lemma underscores_cons c s : (underscores s <= underscores (c :: s))%nat.
Proof. unfold underscores. simpl. destruct (c =? UNDERSCORE)%N; simpl; lia. Qed.

Lemma matchNew_underscores s g : matchNew s = Some g -> (3 <= underscores s)%nat.
Proof.
  induction s as [|c s IH]; cbn [matchNew].
  - destruct (matchHere []) eqn:H; [|done]. intros _. by apply matchHere_underscores in H.
  - destruct (matchHere (c :: s)) eqn:H.
    + intros _. by apply matchHere_underscores in H.
    + intros H'. pose proof (underscores_cons c s). apply IH in H'. lia.
Qed.

Lemma split_length s : length (split UNDERSCORE s) = S (underscores s).
Proof.
  unfold split, underscores. induction s as [|c s IH]; simpl; [done|].
  destruct (c =? UNDERSCORE)%N; simpl; [by rewrite IH|].
  destruct (splitBy _ s); simpl in *; lia.
Qed.

(** X26: an id with fewer than three underscores is in neither format, and
    [parseSrirangaId] returns the empty result with book 0 and verse 0. *)
Theorem parseSrirangaId_default id :
  (underscores id < 3)%nat ->
  parseSrirangaId id
  = {| book := Some 0%Z; parva := []; upaparva := []; adhyaya := [];
       verseDevanagari := []; verseNumeric := Some 0%Z |}.
Proof.
  intros H. unfold parseSrirangaId.
  destruct (matchNew id) as [g|] eqn:Hm.
  - apply matchNew_underscores in Hm. lia.
  - rewrite split_length.
    destruct (Nat.leb_spec 6 (S (underscores id))); [lia|done].
Qed.

Lemma split_fields f fs :
  Forall (Forall (fun c => c <> UNDERSCORE)) (f :: fs) ->
  split UNDERSCORE (join [UNDERSCORE] (f :: fs)) = f :: fs.
Proof.
  unfold split. revert f. induction fs as [|g fs IH]; intros f Hf.
  - simpl. apply TokenizeFacts.splitBy_whole. inversion Hf as [|? ? H _]; subst.
    eapply Forall_impl; [exact H|]. intros c Hc. by apply N.eqb_neq.
  - inversion Hf as [|? ? H Hrest]; subst.
    change (join [UNDERSCORE] (f :: g :: fs))
      with (f ++ UNDERSCORE :: join [UNDERSCORE] (g :: fs)).
    rewrite TokenizeFacts.splitBy_app, (IH g Hrest); [done| |done].
    eapply Forall_impl; [exact H|]. intros c Hc. by apply N.eqb_neq.
Qed.

(** X27: an id of six or more fields joined by underscores in which the new
    pattern does not occur is read field by field: the fields after the
    sixth are dropped. *)
Theorem parseSrirangaId_old_format f0 f1 f2 f3 f4 f5 more :
  Forall (Forall (fun c => c <> UNDERSCORE)) (f0 :: f1 :: f2 :: f3 :: f4 :: f5 :: more) ->
  matchNew (join [UNDERSCORE] (f0 :: f1 :: f2 :: f3 :: f4 :: f5 :: more)) = None ->
  parseSrirangaId (join [UNDERSCORE] (f0 :: f1 :: f2 :: f3 :: f4 :: f5 :: more))
  = {| book := parseInt f0; parva := f1; upaparva := f2; adhyaya := f3;
       verseDevanagari := f4; verseNumeric := parseInt f5 |}.
Proof.
  intros Hf Hm. unfold parseSrirangaId. rewrite Hm, (split_fields _ _ Hf). done.
Qed.


Lemma parseSrirangaId_default_witness :
  parseSrirangaId (units "MBH_1.4")
  = {| book := Some 0%Z; parva := []; upaparva := []; adhyaya := [];
       verseDevanagari := []; verseNumeric := Some 0%Z |}.
Proof.
  assert (H : (underscores (units "MBH_1.4") < 3)%nat) by (vm_compute; lia).
  exact (parseSrirangaId_default (units "MBH_1.4") H).
Defined.

Lemma parseSrirangaId_old_format_witness :
  parseSrirangaId (units "001_P01_U01_A08_१९_19")
  = {| book := Some 1%Z; parva := units "P01"; upaparva := units "U01";
       adhyaya := units "A08"; verseDevanagari := [0x967; 0x96f]%N;
       verseNumeric := Some 19%Z |}.
Proof.
  assert (Hf : Forall (Forall (fun c => c <> UNDERSCORE))
                 [units "001"; units "P01"; units "U01"; units "A08";
                  [0x967; 0x96f]%N; units "19"])
    by (repeat constructor; discriminate).
  assert (Hm : matchNew (join [UNDERSCORE]
                 [units "001"; units "P01"; units "U01"; units "A08";
                  [0x967; 0x96f]%N; units "19"]) = None)
    by (vm_compute; reflexivity).
  exact (parseSrirangaId_old_format (units "001") (units "P01") (units "U01")
           (units "A08") [0x967; 0x96f]%N (units "19") [] Hf Hm).
Defined.

End IdFacts.
